(** * Capture and comparison pipeline of the web cloning agent

    A shallow embedding of the algorithmic parts of the repository:

    - [src/testing/visual-test.js]: [cssValuesMatch], [compareCSSProperties],
      [comparePages];
    - [src/scraper/dom-analyzer.js]: [extractElement], [analyzeDOMStructure];
    - the network capture module: [isApiCall], [captureNetworkTraffic];
    - further on: [runVisualTests], [extractInteractiveElements],
      [generateId] and the choice of the application root.

    Host facilities (the browser, the clock, the file system) appear as
    explicit inputs: a page is what its queries answer, an event carries what
    the host reported.  JavaScript strings are modelled as sequences of code
    units below 256 (Latin-1), on which [toLowerCase], [trim] and the regular
    expression class [\s] are written out exactly. *)

From Stdlib Require Import ZArith List String Ascii Bool Lia Floats DecimalString.
From Stdlib Require Import DecimalN DecimalPos.
From stdpp Require Import gmap strings list.

Local Open Scope string_scope.
#[local] Set Warnings "-register-all".

(** ** JavaScript strings *)

Module JsString.

(** Code units with a lower-case mapping in Unicode, below 256:
    [A-Z], [U+00C0-U+00D6] and [U+00D8-U+00DE]. *)
Definition isUpper (c : ascii) : bool :=
  let n := N_of_ascii c in
  ((65 <=? n) && (n <=? 90) || (192 <=? n) && (n <=? 214)
   || (216 <=? n) && (n <=? 222))%N.

Definition toLowerChar (c : ascii) : ascii :=
  if isUpper c then ascii_of_N (N_of_ascii c + 32) else c.

(** [String.prototype.toLowerCase]. *)
Fixpoint toLowerCase (s : string) : string :=
  match s with
  | EmptyString => EmptyString
  | String c r => String (toLowerChar c) (toLowerCase r)
  end.

(** The class [\s] (WhiteSpace and LineTerminator) below 256:
    TAB, LF, VT, FF, CR, SP and NBSP. *)
Definition isSpace (c : ascii) : bool :=
  let n := N_of_ascii c in
  ((9 <=? n) && (n <=? 13) || (n =? 32) || (n =? 160))%N.

Fixpoint trimStart (s : string) : string :=
  match s with
  | EmptyString => EmptyString
  | String c r => if isSpace c then trimStart r else s
  end.

Fixpoint trimEnd (s : string) : string :=
  match s with
  | EmptyString => EmptyString
  | String c r =>
      match trimEnd r with
      | EmptyString => if isSpace c then EmptyString else String c EmptyString
      | r' => String c r'
      end
  end.

(** [String.prototype.trim]. *)
Definition trim (s : string) : string := trimEnd (trimStart s).

(** [s.replace(/\s+/g, " ")]: every maximal run of white space becomes one
    space.  [inRun] records that the previous code unit was white space. *)
Fixpoint collapseFrom (inRun : bool) (s : string) : string :=
  match s with
  | EmptyString => EmptyString
  | String c r =>
      if isSpace c
      then (if inRun then collapseFrom true r
            else String " " (collapseFrom true r))
      else String c (collapseFrom false r)
  end.

Definition replaceSpaceRuns (s : string) : string := collapseFrom false s.

(** [s.includes(pattern)]. *)
Fixpoint includes (s pattern : string) : bool :=
  String.prefix pattern s
  || match s with
     | EmptyString => false
     | String _ r => includes r pattern
     end.

(** [s.substr(start, len)] for non-negative arguments. *)
Definition substr (s : string) (start len : nat) : string :=
  substring start len s.

(** A string made of white space only. *)
Fixpoint allSpace (s : string) : bool :=
  match s with
  | EmptyString => true
  | String c r => isSpace c && allSpace r
  end.

End JsString.

(** ** Numbers: [Number.prototype.toFixed] on binary64 values *)

Module JsNumber.

(** The number of an array length. *)
Definition ofNat (n : nat) : float := PrimFloat.of_uint63 (Uint63.of_Z (Z.of_nat n)).

Definition decimal (n : Z) : string := NilZero.string_of_uint (N.to_uint (Z.to_N n)).

Fixpoint zeros (n : nat) : string :=
  match n with O => EmptyString | S k => String "0" (zeros k) end.

(** The digits of [n], with a point before the last [f] of them. *)
Definition pointed (f : nat) (n : Z) : string :=
  let d := decimal n in
  let d := zeros (S f - String.length d) ++ d in
  let k := String.length d - f in
  match f with
  | O => d
  | _ => substring 0 k d ++ "." ++ substring k f d
  end.

(** The integer [n] for which [n / 10^f - m * 2^e] is closest to zero, the
    larger one on a tie. *)
Definition nearestScaled (f : nat) (m : positive) (e : Z) : Z :=
  let p := (Z.pos m * 10 ^ Z.of_nat f)%Z in
  if (0 <=? e)%Z then (p * 2 ^ e)%Z
  else ((2 * p + 2 ^ (- e)) / 2 ^ (1 - e))%Z.

(** [x.toFixed(f)].  Values of magnitude [10^21] and above are printed by
    the host's number-to-string conversion, which is not modelled:
    the result is [None] there. *)
Definition toFixed (f : nat) (x : float) : option string :=
  match Prim2SF x with
  | S754_nan => Some "NaN"
  | S754_infinity false => Some "Infinity"
  | S754_infinity true => Some "-Infinity"
  | S754_zero _ => Some (pointed f 0)
  | S754_finite s m e =>
      if (0 <=? e)%Z && (10 ^ 21 <=? Z.pos m * 2 ^ e)%Z then None
      else Some ((if s then "-" else "") ++ pointed f (nearestScaled f m e))
  end.

End JsNumber.

(** ** Visual comparison ([src/testing/visual-test.js]) *)

Module VisualTest.
Import JsString.

(** The values a style property can hold when it is compared. *)
Inductive JsValue : Type :=
| JsNull
| JsUndefined
| JsStr (s : string).

(** The inner [normalize] of [cssValuesMatch]: a falsy value (null,
    undefined, the empty string) gives the empty string. *)
Definition normalize (val : JsValue) : string :=
  match val with
  | JsNull | JsUndefined => ""
  | JsStr s =>
      if String.eqb s "" then ""
      else trim (replaceSpaceRuns (toLowerCase s))
  end.

Definition cssValuesMatch (value1 value2 : JsValue) : bool :=
  String.eqb (normalize value1) (normalize value2).

(** The selector classes sampled by [compareCSSProperties]. *)
Definition selectors : list string :=
  ["button"; "input"; "a"; "h1"; "h2"; "h3"; ".card"; ".header"; ".sidebar";
   "nav"].

(** The properties read from the computed style, in the order of the object
    literal built inside the page. *)
Definition comparedProperties : list string :=
  ["color"; "backgroundColor"; "fontSize"; "fontWeight"; "padding"; "margin";
   "borderRadius"; "display"].

(** An element handle: what [getComputedStyle] answers for a property, and
    whether [evaluate] on the handle is rejected. *)
Record ElementHandle : Type := {
  computedStyle : string -> JsValue;
  evaluateRejected : bool
}.

(** A loaded page, as the comparison sees it.  [goto url], [screenshot] and
    [query selector] (the [$$] call) answer [Some message] / [None] when the
    host rejects the call. *)
Record Page : Type := {
  goto : string -> option string;
  screenshot : option string;
  query : string -> option (list ElementHandle)
}.

(** The object returned by the function evaluated on a handle. *)
Definition Styles : Type := list (string * JsValue).

(** The object literal with the properties [props] read through [style]. *)
Definition styleEntries (style : string -> JsValue) (props : list string)
    : Styles :=
  map (fun p => (p, style p)) props.

Definition evaluateStyles (el : ElementHandle) : option Styles :=
  if evaluateRejected el then None
  else Some (styleEntries (computedStyle el) comparedProperties).

(** [styles[property]]. *)
Fixpoint getProperty (styles : Styles) (property : string) : JsValue :=
  match styles with
  | [] => JsUndefined
  | (k, v) :: rest =>
      if String.eqb k property then v else getProperty rest property
  end.

Record Match : Type := {
  m_selector : string;
  m_property : string;
  m_value : JsValue
}.

Record Mismatch : Type := {
  mm_selector : string;
  mm_property : string;
  mm_original : JsValue;
  mm_generated : JsValue
}.

Record Comparison : Type := {
  matches : list Match;
  mismatches : list Mismatch
}.

(** One round of the loop over [Object.entries(originalStyles)]. *)
Definition compareEntry (selector : string) (generatedStyles : Styles)
    (acc : Comparison) (entry : string * JsValue) : Comparison :=
  let '(property, originalValue) := entry in
  let generatedValue := getProperty generatedStyles property in
  if cssValuesMatch originalValue generatedValue
  then {| matches := matches acc ++
            [{| m_selector := selector; m_property := property;
                m_value := originalValue |}];
          mismatches := mismatches acc |}
  else {| matches := matches acc;
          mismatches := mismatches acc ++
            [{| mm_selector := selector; mm_property := property;
                mm_original := originalValue;
                mm_generated := generatedValue |}] |}.

(** The body of the loop over the selectors: any rejection inside the
    [try] skips the selector, and so does an empty result on either side. *)
Definition compareSelector (originalPage generatedPage : Page)
    (acc : Comparison) (selector : string) : Comparison :=
  match query originalPage selector with
  | None => acc
  | Some originalElements =>
      match query generatedPage selector with
      | None => acc
      | Some generatedElements =>
          match originalElements, generatedElements with
          | o :: _, g :: _ =>
              match evaluateStyles o with
              | None => acc
              | Some originalStyles =>
                  match evaluateStyles g with
                  | None => acc
                  | Some generatedStyles =>
                      fold_left (compareEntry selector generatedStyles)
                                originalStyles acc
                  end
              end
          | _, _ => acc
          end
      end
  end.

Definition compareCSSProperties (originalPage generatedPage : Page)
    : Comparison :=
  fold_left (compareSelector originalPage generatedPage) selectors
            {| matches := []; mismatches := [] |}.

(** The table [pageUrls]; a key outside the table prints as [undefined]
    inside the template literal (names inherited from [Object.prototype]
    are left aside: the URL only reaches [goto], whose answer is an input). *)
Definition pageUrls (pageName : string) : option string :=
  if String.eqb pageName "home" then Some "/home"
  else if String.eqb pageName "projects" then Some "/projects"
  else if String.eqb pageName "tasks" then Some "/tasks"
  else None.

Definition pageUrl (root pageName : string) : string :=
  root ++ match pageUrls pageName with Some p => p | None => "undefined" end.

Record PageTest : Type := {
  page : string;
  passed : bool;
  differences : list string;
  cssMatches : list Match;
  cssMismatches : list Mismatch;
  matchPercentage : option string;
  error : option string
}.

(** The score computed by [comparePages], in binary64 arithmetic. *)
Definition score (nMatches nMismatches : nat) : float :=
  (JsNumber.ofNat nMatches
     / (JsNumber.ofNat nMatches + JsNumber.ofNat nMismatches) * 100)%float.

(** Sequencing inside the [try] block: the first rejection is the error. *)
Definition andThen {A : Type} (outcome : option string)
    (k : string + A) : string + A :=
  match outcome with
  | Some message => inl message
  | None => k
  end.

(** [comparePages]; [ensureDir] is the outcome of creating the screenshot
    directory. *)
Definition comparePages (ensureDir : option string)
    (originalPage generatedPage : Page)
    (originalUrl generatedUrl pageName : string) : PageTest :=
  let attempt :=
    andThen (goto originalPage (pageUrl originalUrl pageName))
    (andThen (goto generatedPage (pageUrl generatedUrl pageName))
    (andThen ensureDir
    (andThen (screenshot originalPage)
    (andThen (screenshot generatedPage)
    (inr (compareCSSProperties originalPage generatedPage)))))) in
  match attempt with
  | inr cssComparison =>
      let matchPercentage :=
        score (List.length (matches cssComparison))
              (List.length (mismatches cssComparison)) in
      {| page := pageName;
         passed := (80 <=? matchPercentage)%float;
         differences := [];
         cssMatches := matches cssComparison;
         cssMismatches := mismatches cssComparison;
         matchPercentage := JsNumber.toFixed 2 matchPercentage;
         error := None |}
  | inl message =>
      {| page := pageName;
         passed := false;
         differences := [];
         cssMatches := [];
         cssMismatches := [];
         matchPercentage := None;
         error := Some message |}
  end.






(** Nothing is rejected before the properties are compared. *)
Definition loaded (ensureDir : option string) (originalPage generatedPage : Page)
    (originalUrl generatedUrl pageName : string) : Prop :=
  goto originalPage (pageUrl originalUrl pageName) = None /\
  goto generatedPage (pageUrl generatedUrl pageName) = None /\
  ensureDir = None /\
  screenshot originalPage = None /\
  screenshot generatedPage = None.


End VisualTest.

(** ** DOM snapshot ([src/scraper/dom-analyzer.js]) *)

Module DomAnalyzer.
Import JsString.

(** [getBoundingClientRect()]: binary64 numbers. *)
Record DOMRect : Type := {
  x : float;
  y : float;
  width : float;
  height : float
}.

(** What the extractor reads from an element, apart from its child nodes.
    [el_style] is [getComputedStyle(element)] as a property getter. *)
Record ElementData : Type := {
  tagName : string;
  el_id : string;
  classList : list string;
  el_attributes : list (string * string);
  el_style : string -> string;
  el_rect : DOMRect
}.

(** The live tree.  A character-data node carries its [nodeType]: 3 for a
    text node, 4 for a CDATA section, 7 for a processing instruction, 8 for
    a comment. *)
Inductive Element : Type :=
| mkElement (data : ElementData) (nodes : list Node)
with Node : Type :=
| ElementNode (element : Element)
| CharacterData (nodeType : nat) (text : string).

Definition el_data (element : Element) : ElementData :=
  match element with mkElement d _ => d end.

(** [element.childNodes]. *)
Definition childNodes (element : Element) : list Node :=
  match element with mkElement _ ns => ns end.

(** [node.nodeType]; an element has type 1. *)
Definition nodeType (n : Node) : nat :=
  match n with
  | ElementNode _ => 1
  | CharacterData t _ => t
  end.

(** [element.children]: the child nodes that are elements. *)
Fixpoint elementsOf (nodes : list Node) : list Element :=
  match nodes with
  | [] => []
  | ElementNode e :: rest => e :: elementsOf rest
  | CharacterData _ _ :: rest => elementsOf rest
  end.

Definition children (element : Element) : list Element :=
  elementsOf (childNodes element).

(** [element.textContent]: the text of all descendant text nodes (and CDATA
    sections), in tree order. *)
Fixpoint textContent (element : Element) : string :=
  match element with
  | mkElement _ ns =>
      (fix texts (nodes : list Node) : string :=
         match nodes with
         | [] => ""
         | ElementNode e :: rest => textContent e ++ texts rest
         | CharacterData t s :: rest =>
             (if Nat.eqb t 3 || Nat.eqb t 4 then s else "") ++ texts rest
         end) ns
  end.

(** The properties copied into [styles], in the order of the literal. *)
Definition styleProperties : list string :=
  ["display"; "position"; "width"; "height"; "margin"; "padding";
   "backgroundColor"; "color"; "fontSize"; "fontFamily"; "fontWeight";
   "borderRadius"; "border"; "boxShadow"; "flexDirection"; "justifyContent";
   "alignItems"; "gridTemplateColumns"].

(** A node of the snapshot. *)
Inductive DomNode : Type := mkDomNode {
  dn_tag : string;
  dn_id : option string;
  dn_classes : list string;
  dn_attributes : gmap string string;
  dn_styles : list (string * string);
  dn_textContent : option string;
  dn_position : DOMRect;
  dn_children : list DomNode
}.

(** [rect.width > 0 && rect.height > 0]. *)
Definition positiveBox (rect : DOMRect) : bool :=
  (0 <? width rect)%float && (0 <? height rect)%float.

(** [child.tagName === "SCRIPT" || child.tagName === "STYLE"]. *)
Definition isScriptOrStyle (d : ElementData) : bool :=
  String.eqb (tagName d) "SCRIPT" || String.eqb (tagName d) "STYLE".

(** The loop over [element.attributes]: [attributes[attr.name] = attr.value]
    on a plain object.  Under the name [__proto__] the assignment reaches
    the setter inherited from [Object.prototype], which ignores a string,
    so no key is created; every other name becomes a key of the object. *)
Definition collectAttributes (attrs : list (string * string))
    : gmap string string :=
  fold_left (fun acc a =>
               if String.eqb a.1 "__proto__" then acc else <[a.1 := a.2]> acc)
            attrs ∅.

(** The [textContent] field: only for a single child node of type 3. *)
Definition leafText (element : Element) : option string :=
  match childNodes element with
  | [n] => if Nat.eqb (nodeType n) 3 then Some (trim (textContent element)) else None
  | _ => None
  end.

(** The loop over [element.children], given the recursive call: a [script]
    or [style] child is skipped, and so are a child without a positive box
    and a child whose extraction is [null]. *)
Definition walkChildren (extract : Element -> option DomNode)
    : list Node -> list DomNode :=
  fix walk (nodes : list Node) : list DomNode :=
    match nodes with
    | [] => []
    | ElementNode child :: rest =>
        if isScriptOrStyle (el_data child) then walk rest
        else if positiveBox (el_rect (el_data child)) then
          match extract child with
          | Some childData => childData :: walk rest
          | None => walk rest
          end
        else walk rest
    | CharacterData _ _ :: rest => walk rest
    end.

(** [extractElement(element, depth)] for a non-null [element]; [None] is the
    [null] result. *)
Fixpoint extractElement (element : Element) (depth : nat) {struct element}
    : option DomNode :=
  if Nat.ltb 15 depth then None
  else
    match element with
    | mkElement d ns =>
        Some {| dn_tag := toLowerCase (tagName d);
                dn_id := if String.eqb (el_id d) "" then None
                         else Some (el_id d);
                dn_classes := classList d;
                dn_attributes := collectAttributes (el_attributes d);
                dn_styles := map (fun p => (p, el_style d p)) styleProperties;
                dn_textContent := leafText element;
                dn_position := el_rect d;
                dn_children :=
                  walkChildren (fun child => extractElement child (S depth)) ns |}
    end.

(** The selectors used to find the application container. *)
Inductive Selector : Type :=
| AttributeEquals (name value : string)
| IdIs (id : string)
| ClassIs (class : string).

Fixpoint getAttribute (attrs : list (string * string)) (name : string)
    : option string :=
  match attrs with
  | [] => None
  | (k, v) :: rest => if String.eqb k name then Some v else getAttribute rest name
  end.

Definition selects (sel : Selector) (d : ElementData) : bool :=
  match sel with
  | AttributeEquals name value =>
      match getAttribute (el_attributes d) name with
      | Some v => String.eqb v value
      | None => false
      end
  | IdIs id => String.eqb (el_id d) id
  | ClassIs c => existsb (String.eqb c) (classList d)
  end.

(** The first element in tree order, [root] included, that [sel] selects. *)
Fixpoint firstMatch (sel : Selector) (root : Element) : option Element :=
  match root with
  | mkElement d ns =>
      if selects sel d then Some root
      else
        (fix search (nodes : list Node) : option Element :=
           match nodes with
           | [] => None
           | ElementNode e :: rest =>
               match firstMatch sel e with
               | Some found => Some found
               | None => search rest
               end
           | CharacterData _ _ :: rest => search rest
           end) ns
  end.

(** The document, as [analyzeDOMStructure] reads it. *)
Record Document : Type := {
  title : string;
  href : string;
  innerWidth : float;
  innerHeight : float;
  documentElement : option Element
}.

(** [document.querySelector(sel)]. *)
Definition querySelector (doc : Document) (sel : Selector) : option Element :=
  match documentElement doc with
  | Some root => firstMatch sel root
  | None => None
  end.

(** [document.body]: the first [body] or [frameset] child of the [html]
    element. *)
Definition body (doc : Document) : option Element :=
  match documentElement doc with
  | Some root =>
      if String.eqb (tagName (el_data root)) "HTML" then
        List.find (fun e => String.eqb (tagName (el_data e)) "BODY"
                            || String.eqb (tagName (el_data e)) "FRAMESET")
                  (children root)
      else None
  | None => None
  end.

(** [a || b] on element references. *)
Definition orElse (a b : option Element) : option Element :=
  match a with Some _ => a | None => b end.

Definition appRoot (doc : Document) : option Element :=
  orElse (querySelector doc (AttributeEquals "role" "main"))
    (orElse (querySelector doc (IdIs "root"))
       (orElse (querySelector doc (ClassIs "app")) (body doc))).

Record Viewport : Type := { vp_width : float; vp_height : float }.

Record DomData : Type := {
  dd_title : string;
  dd_url : string;
  dd_viewport : Viewport;
  structure : option DomNode
}.

(** The function evaluated in the page by [analyzeDOMStructure]; a missing
    root gives a [null] structure. *)
Definition analyzeDOMStructure (doc : Document) : DomData :=
  {| dd_title := title doc;
     dd_url := href doc;
     dd_viewport := {| vp_width := innerWidth doc;
                       vp_height := innerHeight doc |};
     structure := match appRoot doc with
                  | Some root => extractElement root 0
                  | None => None
                  end |}.

(** The nodes of a snapshot with their depth below the root. *)
Inductive AtDepth (root : DomNode) : nat -> DomNode -> Prop :=
| AtRoot : AtDepth root 0 root
| AtChild k parent child :
    AtDepth root k parent -> In child (dn_children parent) ->
    AtDepth root (S k) child.

(** The child elements the walk keeps. *)
Definition kept (child : Element) : bool :=
  negb (isScriptOrStyle (el_data child)) && positiveBox (el_rect (el_data child)).

(** The elements reached from [root] through kept children only, with their
    depth below [root]. *)
Inductive SourceAt (root : Element) : nat -> Element -> Prop :=
| SourceRoot : SourceAt root 0 root
| SourceChild k parent child :
    SourceAt root k parent -> In child (children parent) ->
    kept child = true ->
    SourceAt root (S k) child.

End DomAnalyzer.

(** ** [JSON.parse] *)

Module Json.

(** A parsed text, kept in source form: a number by its literal, a string
    by the characters between its quotes (escapes as written), an object by
    its members in order. *)
Inductive Value : Type :=
| JNull
| JBool (b : bool)
| JNumber (literal : string)
| JString (chars : string)
| JArray (items : list Value)
| JObject (members : list (string * Value)).

Definition charIs (c : ascii) (s : string) : bool :=
  String.eqb (String c EmptyString) s.

(** The quotation mark, U+0022. *)
Definition quote : string := String "034"%char EmptyString.

Definition among (c : ascii) (s : string) : bool :=
  JsString.includes s (String c EmptyString).

(** JSON white space: TAB, LF, CR and SP. *)
Definition isWs (c : ascii) : bool :=
  let n := N_of_ascii c in ((n =? 9) || (n =? 10) || (n =? 13) || (n =? 32))%N.

Fixpoint skipWs (s : string) : string :=
  match s with
  | String c r => if isWs c then skipWs r else s
  | EmptyString => s
  end.

Definition isDigit (c : ascii) : bool := among c "0123456789".
Definition isHex (c : ascii) : bool := among c "0123456789abcdefABCDEF".

(** The longest prefix of digits, and what follows it. *)
Fixpoint digits (s : string) : string * string :=
  match s with
  | String c r =>
      if isDigit c then let '(d, r') := digits r in (String c d, r')
      else (EmptyString, s)
  | EmptyString => (EmptyString, s)
  end.

(** A number literal: an optional minus sign; an integer part that is one
    zero or starts with a non-zero digit; an optional fraction (a point and
    at least one digit); an optional exponent (e or E, an optional sign and
    at least one digit). *)
Definition number (s : string) : option (string * string) :=
  let '(sign, s1) :=
    match s with
    | String c r => if charIs c "-" then ("-", r) else ("", s)
    | EmptyString => ("", s)
    end in
  let '(int, s2) := digits s1 in
  if String.eqb int "" || (String.prefix "0" int && negb (String.eqb int "0"))
  then None
  else
    let frac :=
      match s2 with
      | String c r =>
          if charIs c "." then
            let '(d, r') := digits r in
            if String.eqb d "" then None else Some ("." ++ d, r')
          else Some ("", s2)
      | EmptyString => Some ("", s2)
      end in
    match frac with
    | None => None
    | Some (f, s3) =>
        match s3 with
        | String c r =>
            if among c "eE" then
              let '(esign, r1) :=
                match r with
                | String c' r' =>
                    if among c' "+-" then (String c' "", r') else ("", r)
                | EmptyString => ("", r)
                end in
              let '(d, r2) := digits r1 in
              if String.eqb d "" then None
              else Some (sign ++ int ++ f ++ String c esign ++ d, r2)
            else Some (sign ++ int ++ f, s3)
        | EmptyString => Some (sign ++ int ++ f, s3)
        end
    end.

(** The characters of a string literal after its opening quote, up to the
    closing one.  [fuel] bounds the number of characters read. *)
Fixpoint chars (fuel : nat) (s : string) : option (string * string) :=
  match fuel with
  | O => None
  | S fuel =>
      match s with
      | EmptyString => None
      | String c r =>
          if charIs c quote then Some ("", r)
          else if charIs c "\" then
            match r with
            | String e r1 =>
                if among e (quote ++ "\/bfnrt") then
                  match chars fuel r1 with
                  | Some (t, rest) => Some (String c (String e t), rest)
                  | None => None
                  end
                else if charIs e "u" then
                  match r1 with
                  | String h1 (String h2 (String h3 (String h4 r2))) =>
                      if isHex h1 && isHex h2 && isHex h3 && isHex h4 then
                        match chars fuel r2 with
                        | Some (t, rest) =>
                            Some (String c (String e (String h1 (String h2
                                    (String h3 (String h4 t))))), rest)
                        | None => None
                        end
                      else None
                  | _ => None
                  end
                else None
            | EmptyString => None
            end
          else if (N_of_ascii c <? 32)%N then None
          else
            match chars fuel r with
            | Some (t, rest) => Some (String c t, rest)
            | None => None
            end
      end
  end.

Definition literal (word : string) (v : Value) (s : string)
    : option (Value * string) :=
  if String.prefix word s
  then Some (v, substring (String.length word)
                          (String.length s - String.length word) s)
  else None.

(** A value, the elements of an array after its bracket, the members of an
    object after its brace. *)
Fixpoint value (fuel : nat) (s : string) : option (Value * string) :=
  match fuel with
  | O => None
  | S fuel =>
      match skipWs s with
      | EmptyString => None
      | String c r =>
          if charIs c "{" then
            match skipWs r with
            | String c' r' =>
                if charIs c' "}" then Some (JObject [], r')
                else match members fuel (String c' r') with
                     | Some (ms, rest) => Some (JObject ms, rest)
                     | None => None
                     end
            | EmptyString => None
            end
          else if charIs c "[" then
            match skipWs r with
            | String c' r' =>
                if charIs c' "]" then Some (JArray [], r')
                else match elements fuel (String c' r') with
                     | Some (vs, rest) => Some (JArray vs, rest)
                     | None => None
                     end
            | EmptyString => None
            end
          else if charIs c quote then
            match chars (String.length r) r with
            | Some (t, rest) => Some (JString t, rest)
            | None => None
            end
          else if charIs c "t" then literal "true" (JBool true) (String c r)
          else if charIs c "f" then literal "false" (JBool false) (String c r)
          else if charIs c "n" then literal "null" JNull (String c r)
          else
            match number (String c r) with
            | Some (n, rest) => Some (JNumber n, rest)
            | None => None
            end
      end
  end
with elements (fuel : nat) (s : string) : option (list Value * string) :=
  match fuel with
  | O => None
  | S fuel =>
      match value fuel s with
      | Some (v, r) =>
          match skipWs r with
          | String c r' =>
              if charIs c "," then
                match elements fuel r' with
                | Some (vs, rest) => Some (v :: vs, rest)
                | None => None
                end
              else if charIs c "]" then Some ([v], r')
              else None
          | EmptyString => None
          end
      | None => None
      end
  end
with members (fuel : nat) (s : string)
    : option (list (string * Value) * string) :=
  match fuel with
  | O => None
  | S fuel =>
      match skipWs s with
      | String q r0 =>
          if charIs q quote then
            match chars (String.length r0) r0 with
            | Some (key, r1) =>
                match skipWs r1 with
                | String colon r2 =>
                    if charIs colon ":" then
                      match value fuel r2 with
                      | Some (v, r3) =>
                          match skipWs r3 with
                          | String c r' =>
                              if charIs c "," then
                                match members fuel r' with
                                | Some (ms, rest) => Some ((key, v) :: ms, rest)
                                | None => None
                                end
                              else if charIs c "}" then Some ([(key, v)], r')
                              else None
                          | EmptyString => None
                          end
                      | None => None
                      end
                    else None
                | EmptyString => None
                end
            | None => None
            end
          else None
      | EmptyString => None
      end
  end.

(** [JSON.parse(text)]; [None] when it throws a [SyntaxError]. *)
Definition parse (text : string) : option Value :=
  match value (2 * String.length text + 2) text with
  | Some (v, rest) =>
      if String.eqb (skipWs rest) "" then Some v else None
  | None => None
  end.

End Json.

(** ** Network capture *)

Module NetworkCapture.
Import JsString.

Definition apiPatterns : list string :=
  ["/api/"; "/graphql"; "/rest/"; "app.asana.com/api"].

Definition excludePatterns : list string :=
  [".js"; ".css"; ".png"; ".jpg"; ".jpeg"; ".gif"; ".svg"; ".woff"; ".woff2";
   ".ttf"; ".ico"; "analytics"; "tracking"; "segment.io"; "google-analytics"].

Definition isApiCall (url : string) : bool :=
  let lowerUrl := toLowerCase url in
  let isApi := existsb (fun pattern => includes lowerUrl pattern) apiPatterns in
  let isNotExcluded :=
    negb (existsb (fun pattern => includes lowerUrl pattern) excludePatterns) in
  isApi && isNotExcluded.

(** [generateId()]: [now] is [Date.now()] and [random36] is
    [Math.random().toString(36)]. *)
Definition generateId (now : Z) (random36 : string) : string :=
  "req_" ++ JsNumber.decimal now ++ "_" ++ substr random36 2 9.

(** A request object of the browser; [req_key] stands for its identity, the
    key under which the [Map] files it. *)
Record Request : Type := {
  req_key : nat;
  req_url : string;
  req_method : string;
  req_headers : list (string * string);
  req_postData : option string
}.

Record Response : Type := {
  resp_request : Request;
  resp_url : string;
  resp_status : Z;
  resp_headers : list (string * string)
}.

Record RequestData : Type := {
  rd_id : string;
  rd_url : string;
  rd_method : string;
  rd_headers : list (string * string);
  rd_postData : option string;
  rd_timestamp : Z
}.

(** The [body] of a recorded response: [null], the text as read, or the
    parsed value. *)
Inductive Body : Type :=
| BodyNull
| BodyText (text : string)
| BodyJson (value : Json.Value).

Record ResponseData : Type := {
  r_status : Z;
  r_headers : list (string * string);
  r_body : Body;
  r_contentType : string
}.

(** [{ ...requestData, response: {...} }]. *)
Record ApiCall : Type := {
  call_request : RequestData;
  call_response : ResponseData
}.

(** [response.headers()[name] || ""]. *)
Fixpoint headerOrEmpty (hs : list (string * string)) (name : string) : string :=
  match hs with
  | [] => ""
  | (k, v) :: rest => if String.eqb k name then v else headerOrEmpty rest name
  end.

(** A response handler waiting for [response.text()]. *)
Record Suspended : Type := {
  sus_response : Response;
  sus_requestData : RequestData
}.

(** The state closed over by the two listeners and the returned object,
    together with the handlers in flight and the files written. *)
Record State : Type := {
  apiCalls : list ApiCall;
  requestMap : gmap nat RequestData;
  waiting : gmap nat Suspended;
  nextHandler : nat;
  files : gmap string (list ApiCall)
}.

Definition initial : State :=
  {| apiCalls := []; requestMap := ∅; waiting := ∅; nextHandler := 0;
     files := ∅ |}.

(** What the event loop delivers.
    - [RequestEvent]: the page issued [request]; [now1], [random36] and [now2]
      are the host's answers to [Date.now()], [Math.random().toString(36)]
      and [Date.now()] while the entry is built.
    - [ResponseEvent]: the page received [response]; the handler runs up to
      its [await].
    - [TextSettled h outcome]: the promise awaited by handler [h] settles,
      fulfilled with [Some text] or rejected ([None]); the handler runs to
      its end.
    - [SaveToFile filename ok]: [saveToFile] reaches [writeJson], which
      succeeds or not. *)
Inductive Event : Type :=
| RequestEvent (request : Request) (now1 : Z) (random36 : string) (now2 : Z)
| ResponseEvent (response : Response)
| TextSettled (handler : nat) (outcome : option string)
| SaveToFile (filename : string) (ok : bool).

Definition onRequest (st : State) (request : Request) (now1 : Z)
    (random36 : string) (now2 : Z) : State :=
  let url := req_url request in
  let method := req_method request in
  if isApiCall url then
    let requestData :=
      {| rd_id := generateId now1 random36;
         rd_url := url;
         rd_method := method;
         rd_headers := req_headers request;
         rd_postData := req_postData request;
         rd_timestamp := now2 |} in
    {| apiCalls := apiCalls st;
       requestMap := <[req_key request := requestData]> (requestMap st);
       waiting := waiting st;
       nextHandler := nextHandler st;
       files := files st |}
  else st.

(** The response handler up to [await response.text()]. *)
Definition onResponse (st : State) (response : Response) : State :=
  let request := resp_request response in
  match requestMap st !! req_key request with
  | Some requestData =>
      if isApiCall (resp_url response) then
        {| apiCalls := apiCalls st;
           requestMap := requestMap st;
           waiting := <[nextHandler st :=
                         {| sus_response := response;
                            sus_requestData := requestData |}]> (waiting st);
           nextHandler := S (nextHandler st);
           files := files st |}
      else st
  | None => st
  end.

(** The [body] expression; [None] when [JSON.parse] throws. *)
Definition responseBodyValue (contentType : string)
    (responseBody : option string) : option Body :=
  match responseBody with
  | None => Some BodyNull
  | Some text =>
      if includes contentType "application/json" && negb (String.eqb text "")
      then match Json.parse text with
           | Some v => Some (BodyJson v)
           | None => None
           end
      else Some (BodyText text)
  end.

(** The rest of the response handler: the [try] block, whose [catch] only
    logs, and then the eviction. *)
Definition onTextSettled (st : State) (handler : nat)
    (responseBody : option string) : State :=
  match waiting st !! handler with
  | None => st
  | Some h =>
      let response := sus_response h in
      let contentType := headerOrEmpty (resp_headers response) "content-type" in
      let pushed : list ApiCall :=
        match responseBodyValue contentType responseBody with
        | Some b =>
            (apiCalls st ++
              [{| call_request := sus_requestData h;
                  call_response :=
                    {| r_status := resp_status response;
                       r_headers := resp_headers response;
                       r_body := b;
                       r_contentType := contentType |} |}])%list
        | None => apiCalls st
        end in
      {| apiCalls := pushed;
         requestMap := delete (req_key (resp_request response)) (requestMap st);
         waiting := delete handler (waiting st);
         nextHandler := nextHandler st;
         files := files st |}
  end.

(** [saveToFile(filename)] at the moment it serialises [apiCalls]. *)
Definition onSaveToFile (st : State) (filename : string) (ok : bool) : State :=
  if ok then
    {| apiCalls := apiCalls st;
       requestMap := requestMap st;
       waiting := waiting st;
       nextHandler := nextHandler st;
       files := <[filename := apiCalls st]> (files st) |}
  else st.

Definition step (st : State) (ev : Event) : State :=
  match ev with
  | RequestEvent request now1 random36 now2 =>
      onRequest st request now1 random36 now2
  | ResponseEvent response => onResponse st response
  | TextSettled handler outcome => onTextSettled st handler outcome
  | SaveToFile filename ok => onSaveToFile st filename ok
  end.

Definition run (st : State) (events : list Event) : State :=
  fold_left step events st.

(** [getApiCalls()], and the value [saveToFile] resolves to. *)
Definition getApiCalls (st : State) : list ApiCall := apiCalls st.

(** The event is the request event of the request filed under [key]. *)
Definition isRequestOf (key : nat) (ev : Event) : bool :=
  match ev with
  | RequestEvent request _ _ _ => Nat.eqb (req_key request) key
  | _ => false
  end.

(** The event is a response to the request filed under [key]. *)
Definition isResponseTo (key : nat) (ev : Event) : bool :=
  match ev with
  | ResponseEvent response => Nat.eqb (req_key (resp_request response)) key
  | _ => false
  end.

(** The event settles the promise awaited by [handler]. *)
Definition isSettleOf (handler : nat) (ev : Event) : bool :=
  match ev with
  | TextSettled h _ => Nat.eqb h handler
  | _ => false
  end.

(** The record pushed for a suspended handler whose body evaluates to [b]. *)
Definition recordOf (h : Suspended) (b : Body) : ApiCall :=
  {| call_request := sus_requestData h;
     call_response :=
       {| r_status := resp_status (sus_response h);
          r_headers := resp_headers (sus_response h);
          r_body := b;
          r_contentType :=
            headerOrEmpty (resp_headers (sus_response h)) "content-type" |} |}.

(** No handler in flight serves the request filed under [key]. *)
Definition noHandlerFor (key : nat) (st : State) : Prop :=
  forall h s, waiting st !! h = Some s ->
              req_key (resp_request (sus_response s)) <> key.

(** Two states that differ at most in the pending entry of [key]. *)
Definition agreeExcept (key : nat) (st st' : State) : Prop :=
  apiCalls st' = apiCalls st /\
  waiting st' = waiting st /\
  nextHandler st' = nextHandler st /\
  files st' = files st /\
  requestMap st' = delete key (requestMap st) /\
  noHandlerFor key st.

(** Every recorded, pending or suspended entry has an in-scope URL, and
    handlers are numbered below [nextHandler]. *)
Definition wellFormed (st : State) : Prop :=
  Forall (fun call => isApiCall (rd_url (call_request call)) = true)
         (apiCalls st) /\
  (forall k rd, requestMap st !! k = Some rd -> isApiCall (rd_url rd) = true) /\
  (forall h s, waiting st !! h = Some s ->
               isApiCall (rd_url (sus_requestData s)) = true /\
               h < nextHandler st) /\
  (forall f calls, files st !! f = Some calls ->
     Forall (fun call => isApiCall (rd_url (call_request call)) = true) calls).

End NetworkCapture.

(** ** Sample inputs *)

Module DomSamples.
Import DomAnalyzer.

Definition box (w h : float) : DOMRect :=
  {| x := 0; y := 0; width := w; height := h |}.

Definition plain (tag id : string) (rect : DOMRect) : ElementData :=
  {| tagName := tag; el_id := id; classList := [];
     el_attributes := if String.eqb id "" then [] else [("id", id)];
     el_style := fun _ => "";
     el_rect := rect |}.

(** [n] nested [div] elements around a text node. *)
Fixpoint nest (n : nat) : Element :=
  match n with
  | O => mkElement (plain "SPAN" "" (box 10 10)) [CharacterData 3 " leaf "]
  | S k => mkElement (plain "DIV" "" (box 10 10)) [ElementNode (nest k)]
  end.

Definition htmlDocument (content : list Node) : Document :=
  {| title := "Sample"; href := "https://app.asana.com/0/home";
     innerWidth := 1920; innerHeight := 1080;
     documentElement :=
       Some (mkElement (plain "HTML" "" (box 1920 1080))
               [ElementNode (mkElement (plain "HEAD" "" (box 0 0)) []);
                ElementNode (mkElement (plain "BODY" "" (box 1920 1080))
                               content)]) |}.

(** A container that holds twenty levels of elements. *)
Definition deepDocument : Document :=
  htmlDocument [ElementNode (mkElement (plain "DIV" "root" (box 800 600))
                               [ElementNode (nest 20)])].

(** A container without a box of its own, around a paragraph, a script, a
    hidden block with content, a comment and a heading. *)
Definition hiddenBlock : Element :=
  mkElement (plain "DIV" "hidden" (box 0 0))
    [ElementNode (mkElement (plain "P" "" (box 50 10)) [CharacterData 3 "unseen"])].

Definition mixedRoot : Element :=
  mkElement (plain "DIV" "root" (box 0 0))
    [ElementNode (mkElement (plain "P" "" (box 300 20))
                    [CharacterData 3 "  Hello  "]);
     ElementNode (mkElement (plain "SCRIPT" "" (box 5 5))
                    [CharacterData 3 "run()"]);
     ElementNode hiddenBlock;
     CharacterData 8 "note";
     ElementNode (mkElement (plain "H1" "" (box 300 40))
                    [CharacterData 3 "Title"; CharacterData 8 "c"])].

Definition mixedDocument : Document := htmlDocument [ElementNode mixedRoot].

(** The first child, [k] levels down. *)
Fixpoint firstBorn (k : nat) (n : DomNode) : option DomNode :=
  match k with
  | O => Some n
  | S k' =>
      match dn_children n with
      | c :: _ => firstBorn k' c
      | [] => None
      end
  end.

Definition emptyNode : DomNode :=
  {| dn_tag := ""; dn_id := None; dn_classes := []; dn_attributes := ∅;
     dn_styles := []; dn_textContent := None; dn_position := box 0 0;
     dn_children := [] |}.

Definition deepSnapshot : DomNode :=
  default emptyNode (structure (analyzeDOMStructure deepDocument)).

Definition deepLeaf : DomNode := default emptyNode (firstBorn 15 deepSnapshot).

Definition mixedSnapshot : DomNode :=
  default emptyNode (structure (analyzeDOMStructure mixedDocument)).

Definition mixedFirst : DomNode := default emptyNode (firstBorn 1 mixedSnapshot).

End DomSamples.

Module VisualSamples.
Import VisualTest.

(** The computed style of the original application's elements. *)
Definition originalStyle (property : string) : JsValue :=
  if String.eqb property "color" then JsStr "RGB(17, 24, 39)"
  else if String.eqb property "display" then JsStr "Block"
  else if String.eqb property "padding" then JsStr "8px  16px"
  else JsStr "16px".

(** The same values as the reproduction reports them. *)
Definition generatedStyle (property : string) : JsValue :=
  if String.eqb property "color" then JsStr "rgb(17, 24, 39)"
  else if String.eqb property "display" then JsStr "block"
  else if String.eqb property "padding" then JsStr " 8px 16px "
  else JsStr "16px".

Definition pageWith (style : string -> JsValue) : Page :=
  {| goto := fun _ => None;
     screenshot := None;
     query := fun _ => Some [{| computedStyle := style;
                                evaluateRejected := false |}] |}.

Definition originalPage : Page := pageWith originalStyle.
Definition generatedPage : Page := pageWith generatedStyle.

End VisualSamples.

Module NetSamples.
Import NetworkCapture.

Definition tasksRequest : Request :=
  {| req_key := 7; req_url := "https://app.asana.com/api/1.0/tasks";
     req_method := "GET"; req_headers := [("accept", "application/json")];
     req_postData := None |}.

Definition tasksResponse : Response :=
  {| resp_request := tasksRequest;
     resp_url := "https://app.asana.com/api/1.0/tasks";
     resp_status := 200;
     resp_headers := [("content-type", "application/json; charset=utf-8")] |}.

Definition usersRequest : Request :=
  {| req_key := 8; req_url := "https://app.asana.com/api/1.0/users/me";
     req_method := "GET"; req_headers := []; req_postData := None |}.

Definition usersResponse : Response :=
  {| resp_request := usersRequest;
     resp_url := "https://app.asana.com/api/1.0/users/me";
     resp_status := 200;
     resp_headers := [("content-type", "text/plain")] |}.

(** A response declared as JSON whose body is an HTML page. *)
Definition brokenJsonTrace : list Event :=
  [RequestEvent tasksRequest 1700000000000 "0.4fzyo82mvyr" 1700000000001;
   ResponseEvent tasksResponse;
   TextSettled 0 (Some "<html>")].

(** Two requests; only the second one is answered. *)
Definition unansweredTrace : list Event :=
  [RequestEvent tasksRequest 1700000000000 "0.4fzyo82mvyr" 1700000000001;
   RequestEvent usersRequest 1700000000002 "0.k3j9x0aa1bq" 1700000000003;
   SaveToFile "home-api-calls.json" true;
   ResponseEvent usersResponse;
   TextSettled 0 (Some "me");
   SaveToFile "home-api-calls.json" true;
   SaveToFile "home-api-calls.json" true].

(** A request, then the events that arrive while its response is read. *)
Definition readBefore : list Event :=
  [RequestEvent tasksRequest 1700000000000 "0.4fzyo82mvyr" 1700000000001].

Definition readMeanwhile : list Event :=
  [RequestEvent usersRequest 1700000000002 "0.k3j9x0aa1bq" 1700000000003;
   SaveToFile "home-api-calls.json" true].

Definition tasksRequestData : RequestData :=
  {| rd_id := "req_1700000000000_4fzyo82mv";
     rd_url := "https://app.asana.com/api/1.0/tasks";
     rd_method := "GET";
     rd_headers := [("accept", "application/json")];
     rd_postData := None;
     rd_timestamp := 1700000000001 |}.

End NetSamples.

(** ** Accounting over traces of the network capture *)

Module NetworkAccounting.
Import NetworkCapture.

Definition isResponse (ev : Event) : bool :=
  match ev with ResponseEvent _ => true | _ => false end.

Definition isSettle (ev : Event) : bool :=
  match ev with TextSettled _ _ => true | _ => false end.

(** The number of events of a kind in a trace. *)
Definition count (kind : Event -> bool) (events : list Event) : nat :=
  List.length (List.filter kind events).

(** A string of decimal digits. *)
Fixpoint allDigits (s : string) : bool :=
  match s with
  | EmptyString => true
  | String c r => Json.isDigit c && allDigits r
  end.

(** The entry filed for [request] at clock readings [now1], [now2] and
    random text [random36]. *)
Definition requestDataOf (request : Request) (now1 : Z) (random36 : string)
    (now2 : Z) : RequestData :=
  {| rd_id := generateId now1 random36;
     rd_url := req_url request;
     rd_method := req_method request;
     rd_headers := req_headers request;
     rd_postData := req_postData request;
     rd_timestamp := now2 |}.

(** Every saved file holds a prefix of the finalized list. *)
Definition filesLag (st : State) : Prop :=
  forall f calls, files st !! f = Some calls -> calls `prefix_of` apiCalls st.

(** The trace holds, in this order, an in-scope request event that files
    [rd] and an in-scope response event for [response], which answers a
    request filed under the same key. *)
Definition answered (events : list Event) (rd : RequestData)
    (response : Response) : Prop :=
  exists request now1 random36 now2 pre mid post,
    events = (pre ++ RequestEvent request now1 random36 now2
                  :: mid ++ ResponseEvent response :: post)%list /\
    req_key (resp_request response) = req_key request /\
    isApiCall (req_url request) = true /\
    isApiCall (resp_url response) = true /\
    rd = requestDataOf request now1 random36 now2.

(** The trace holds an in-scope request event under [key] that files [rd]. *)
Definition filed (events : list Event) (key : nat) (rd : RequestData) : Prop :=
  exists request now1 random36 now2 pre post,
    events = (pre ++ RequestEvent request now1 random36 now2 :: post)%list /\
    req_key request = key /\
    isApiCall (req_url request) = true /\
    rd = requestDataOf request now1 random36 now2.

(** The call records an answered request of the trace, with the body that
    some settled read of the trace evaluates to. *)
Definition recorded (events : list Event) (call : ApiCall) : Prop :=
  exists s handler outcome b,
    answered events (sus_requestData s) (sus_response s) /\
    In (TextSettled handler outcome) events /\
    responseBodyValue
      (headerOrEmpty (resp_headers (sus_response s)) "content-type") outcome
    = Some b /\
    call = recordOf s b.

(** Everything the state holds comes from the trace. *)
Definition traced (events : list Event) (st : State) : Prop :=
  (forall k rd, requestMap st !! k = Some rd -> filed events k rd) /\
  (forall h s, waiting st !! h = Some s ->
               answered events (sus_requestData s) (sus_response s)) /\
  Forall (recorded events) (apiCalls st).

End NetworkAccounting.

(** ** Queries over the live tree *)

Module DomQueries.
Import JsString DomAnalyzer.

(** The element and its descendants in tree order. *)
Fixpoint descendantsOrSelf (root : Element) : list Element :=
  match root with
  | mkElement _ ns =>
      root ::
      (fix below (nodes : list Node) : list Element :=
         match nodes with
         | [] => []
         | ElementNode e :: rest => (descendantsOrSelf e ++ below rest)%list
         | CharacterData _ _ :: rest => below rest
         end) ns
  end.

(** The elements of the document in tree order. *)
Definition documentElements (doc : Document) : list Element :=
  match documentElement doc with
  | Some root => descendantsOrSelf root
  | None => []
  end.

(** The first element of the document, in tree order, that [sel] selects. *)
Definition firstSelected (doc : Document) (sel : Selector) : option Element :=
  List.find (fun e => selects sel (el_data e)) (documentElements doc).

End DomQueries.

(** ** Interactive elements ([src/scraper/dom-analyzer.js]) *)

Module Interactive.
Import JsString DomAnalyzer.

(** The three shapes of an entry, told apart in the source by [type]. *)
Inductive InteractiveElement : Type :=
| ButtonItem (text : string) (ariaLabel : option string)
    (classes : list string) (position : DOMRect)
| InputItem (inputType placeholder name : string)
    (classes : list string) (position : DOMRect)
| LinkItem (text href : string) (classes : list string) (position : DOMRect).

(** What the page answers: [querySelectorAll selector], in document order,
    and the reflected properties [type], [placeholder], [name] and [href]
    of an element. *)
Record PageDom : Type := {
  querySelectorAll : string -> list Element;
  reflected : Element -> string -> string
}.

Definition buttonSelector : string :=
  "button, [role=" ++ Json.quote ++ "button" ++ Json.quote ++ "]".
Definition inputSelector : string := "input, textarea".
Definition linkSelector : string := "a".

(** [rect.width > 0 && rect.height > 0]. *)
Definition hasBox (el : Element) : bool := positiveBox (el_rect (el_data el)).

Definition buttonOf (el : Element) : InteractiveElement :=
  ButtonItem (trim (textContent el))
             (getAttribute (el_attributes (el_data el)) "aria-label")
             (classList (el_data el)) (el_rect (el_data el)).

Definition inputOf (dom : PageDom) (el : Element) : InteractiveElement :=
  InputItem (reflected dom el "type") (reflected dom el "placeholder")
            (reflected dom el "name")
            (classList (el_data el)) (el_rect (el_data el)).

Definition linkOf (dom : PageDom) (el : Element) : InteractiveElement :=
  LinkItem (trim (textContent el)) (reflected dom el "href")
           (classList (el_data el)) (el_rect (el_data el)).

(** One [forEach] loop: the entries pushed for a selector. *)
Definition pushed (dom : PageDom) (selector : string)
    (entry : Element -> InteractiveElement) : list InteractiveElement :=
  map entry (List.filter hasBox (querySelectorAll dom selector)).

(** The function evaluated in the page by [extractInteractiveElements]. *)
Definition extractInteractiveElements (dom : PageDom)
    : list InteractiveElement :=
  (pushed dom buttonSelector buttonOf
   ++ pushed dom inputSelector (inputOf dom)
   ++ pushed dom linkSelector (linkOf dom))%list.

Definition position (item : InteractiveElement) : DOMRect :=
  match item with
  | ButtonItem _ _ _ p => p
  | InputItem _ _ _ _ p => p
  | LinkItem _ _ _ p => p
  end.

(** The rank of an entry's type: buttons, then inputs, then links. *)
Definition rank (item : InteractiveElement) : nat :=
  match item with
  | ButtonItem _ _ _ _ => 0
  | InputItem _ _ _ _ _ => 1
  | LinkItem _ _ _ _ => 2
  end.

End Interactive.

(** ** Normal forms of CSS values *)

Module NormalForm.
Import JsString.

(** No white space other than single U+0020 characters; [inRun] tells that
    the string follows white space, where none may come next. *)
Fixpoint singleSpaced (inRun : bool) (s : string) : bool :=
  match s with
  | EmptyString => true
  | String c r =>
      if isSpace c
      then Ascii.eqb c " " && negb inRun && singleSpaced true r
      else singleSpaced false r
  end.

(** No code unit that [toLowerCase] changes. *)
Fixpoint lowerCased (s : string) : bool :=
  match s with
  | EmptyString => true
  | String c r => negb (isUpper c) && lowerCased r
  end.

End NormalForm.

(** ** The batch of visual tests ([src/testing/visual-test.js]) *)

Module VisualBatch.
Import JsString VisualTest.

(** A selector class is compared when both pages answer the query with at
    least one element and both evaluations go through. *)
Definition comparable (originalPage generatedPage : Page) (selector : string)
    : bool :=
  match query originalPage selector, query generatedPage selector with
  | Some (o :: _), Some (g :: _) =>
      negb (evaluateRejected o) && negb (evaluateRejected g)
  | _, _ => false
  end.

(** A match entry reports a property of the first original element that the
    first generated element matches. *)
Definition matchSound (originalPage generatedPage : Page) (m : Match) : Prop :=
  In (m_selector m) selectors /\ In (m_property m) comparedProperties /\
  comparable originalPage generatedPage (m_selector m) = true /\
  exists o restO g restG,
    query originalPage (m_selector m) = Some (o :: restO) /\
    query generatedPage (m_selector m) = Some (g :: restG) /\
    m_value m = computedStyle o (m_property m) /\
    cssValuesMatch (computedStyle o (m_property m))
                   (computedStyle g (m_property m)) = true.

(** A mismatch entry reports the values of the two first elements, which do
    not match. *)
Definition mismatchSound (originalPage generatedPage : Page) (mm : Mismatch)
    : Prop :=
  In (mm_selector mm) selectors /\ In (mm_property mm) comparedProperties /\
  comparable originalPage generatedPage (mm_selector mm) = true /\
  exists o restO g restG,
    query originalPage (mm_selector mm) = Some (o :: restO) /\
    query generatedPage (mm_selector mm) = Some (g :: restG) /\
    mm_original mm = computedStyle o (mm_property mm) /\
    mm_generated mm = computedStyle g (mm_property mm) /\
    cssValuesMatch (mm_original mm) (mm_generated mm) = false.

(** A pair of selector and property appears in one of the two lists. *)
Definition reported (c : Comparison) (selector property : string) : Prop :=
  (exists m, In m (matches c) /\ m_selector m = selector /\
             m_property m = property) \/
  (exists mm, In mm (mismatches c) /\ mm_selector mm = selector /\
              mm_property mm = property).

(** What the host provides for one entry of [pages]: the name, the two pages
    opened for it and the outcome of creating the screenshot directory. *)
Record PageRun : Type := {
  run_name : string;
  run_ensureDir : option string;
  run_original : Page;
  run_generated : Page
}.

Record Results : Type := {
  res_passed : nat;
  res_failed : nat;
  res_tests : list PageTest;
  res_accuracy : option string
}.

(** One round of the loop over [pages]. *)
Definition testPage (originalUrl generatedUrl : string) (results : Results)
    (r : PageRun) : Results :=
  let pageTest :=
    comparePages (run_ensureDir r) (run_original r) (run_generated r)
                 originalUrl generatedUrl (run_name r) in
  {| res_passed := if passed pageTest then S (res_passed results)
                   else res_passed results;
     res_failed := if passed pageTest then res_failed results
                   else S (res_failed results);
     res_tests := res_tests results ++ [pageTest];
     res_accuracy := res_accuracy results |}.

(** [runVisualTests] once the browser is launched and the pages of every
    entry are opened; [ensureDir] and [writeJson] are the outcomes of saving
    the results, a rejection of which rejects the whole call.  The number
    [0] that [accuracy] starts with is replaced before the results are
    saved or returned. *)
Definition runVisualTests (originalUrl generatedUrl : string)
    (runs : list PageRun) (ensureDir writeJson : option string)
    : string + Results :=
  let results :=
    fold_left (testPage originalUrl generatedUrl) runs
              {| res_passed := 0; res_failed := 0; res_tests := [];
                 res_accuracy := Some "0" |} in
  let results :=
    {| res_passed := res_passed results;
       res_failed := res_failed results;
       res_tests := res_tests results;
       res_accuracy :=
         JsNumber.toFixed 2 (score (res_passed results) (res_failed results)) |} in
  andThen ensureDir (andThen writeJson (inr results)).

(** The first rejection among the outcomes of a sequence of steps. *)
Fixpoint firstRejection (outcomes : list (option string)) : option string :=
  match outcomes with
  | [] => None
  | Some message :: _ => Some message
  | None :: rest => firstRejection rest
  end.

End VisualBatch.

(** ** Sample inputs for the further properties *)

Module MoreSamples.
Import DomAnalyzer Interactive VisualTest VisualBatch.

(** An element with a repeated attribute name, as a list can hold it. *)
Definition labelled : Element :=
  mkElement
    {| tagName := "BUTTON"; el_id := ""; classList := ["primary"];
       el_attributes := [("type", "submit"); ("aria-label", "Create")];
       el_style := fun _ => "";
       el_rect := DomSamples.box 80 24 |}
    [CharacterData 3 "  New project "].

(** A link that also carries the button role, and a hidden input. *)
Definition roleLink : Element :=
  mkElement
    {| tagName := "A"; el_id := ""; classList := [];
       el_attributes := [("role", "button"); ("href", "/0/home")];
       el_style := fun _ => "";
       el_rect := DomSamples.box 40 16 |}
    [CharacterData 3 "Home"].

Definition hiddenInput : Element :=
  mkElement
    {| tagName := "INPUT"; el_id := ""; classList := [];
       el_attributes := [("type", "hidden")];
       el_style := fun _ => "";
       el_rect := DomSamples.box 0 0 |} [].

Definition samplePage : PageDom :=
  {| querySelectorAll := fun selector =>
       if String.eqb selector buttonSelector then [labelled; roleLink]
       else if String.eqb selector inputSelector then [hiddenInput]
       else if String.eqb selector linkSelector then [roleLink]
       else [];
     reflected := fun el name =>
       match getAttribute (el_attributes (el_data el)) name with
       | Some v => v
       | None => ""
       end |}.






(** A page on which no sampled selector finds an element. *)
Definition blankPage : Page :=
  {| goto := fun _ => None; screenshot := None; query := fun _ => Some [] |}.

End MoreSamples.

(** * Properties *)

(** ** Strings *)

Module JsStringFacts.
Import JsString.

#[local] Arguments String.append : simpl nomatch.

Lemma toLowerCase_app (a b : string) :
  toLowerCase (a ++ b) = toLowerCase a ++ toLowerCase b.
Proof. induction a as [|c a IH]; simpl; [reflexivity | now rewrite IH]. Qed.

Lemma isSpace_toLowerChar (c : ascii) : isSpace (toLowerChar c) = isSpace c.
Proof. destruct c as [[] [] [] [] [] [] [] []]; reflexivity. Qed.

Lemma allSpace_toLowerCase (w : string) :
  allSpace (toLowerCase w) = allSpace w.
Proof.
  induction w as [|c w IH]; simpl; [reflexivity|].
  now rewrite isSpace_toLowerChar, IH.
Qed.

Lemma toLowerCase_empty (w : string) : toLowerCase w = "" -> w = "".
Proof. destruct w; [reflexivity | discriminate]. Qed.

Lemma app_empty_r (a : string) : a ++ "" = a.
Proof. induction a as [|x a IH]; simpl; [reflexivity | now rewrite IH]. Qed.

(** A non-empty run of white space leaves one space, or nothing when the
    run continues an earlier one. *)
Lemma collapseFrom_run (w b : string) (inRun : bool) :
  allSpace w = true -> w <> "" ->
  collapseFrom inRun (w ++ b) =
  (if inRun then "" else " ") ++ collapseFrom true b.
Proof.
  revert inRun. induction w as [|c w IH]; intros inRun Hw Hne; [congruence|].
  simpl in Hw. apply andb_true_iff in Hw as [Hc Hw].
  simpl. rewrite Hc.
  destruct w as [|c' w'].
  - simpl. now destruct inRun.
  - destruct inRun; rewrite (IH true Hw ltac:(discriminate)); reflexivity.
Qed.

Lemma collapseFrom_run_any (a w1 w2 b : string) (inRun : bool) :
  allSpace w1 = true -> w1 <> "" -> allSpace w2 = true -> w2 <> "" ->
  collapseFrom inRun (a ++ w1 ++ b) = collapseFrom inRun (a ++ w2 ++ b).
Proof.
  intros H1 N1 H2 N2. revert inRun.
  induction a as [|c a IH]; intros inRun; simpl.
  - now rewrite !collapseFrom_run.
  - destruct (isSpace c); [destruct inRun|]; now rewrite IH.
Qed.

Lemma collapseFrom_flag (s : string) :
  exists e, allSpace e = true /\ collapseFrom false s = e ++ collapseFrom true s.
Proof.
  destruct s as [|c s]; [now exists ""|]. simpl.
  destruct (isSpace c); [now exists " " | now exists ""].
Qed.

Lemma collapseFrom_allSpace (w : string) (inRun : bool) :
  allSpace w = true -> allSpace (collapseFrom inRun w) = true.
Proof.
  revert inRun. induction w as [|c w IH]; intros inRun Hw; [reflexivity|].
  simpl in Hw. apply andb_true_iff in Hw as [Hc Hw]. simpl. rewrite Hc.
  destruct inRun; simpl; now rewrite IH.
Qed.

Lemma collapseFrom_trailing (s r : string) (inRun : bool) :
  allSpace r = true ->
  exists e, allSpace e = true /\
            collapseFrom inRun (s ++ r) = collapseFrom inRun s ++ e.
Proof.
  intros Hr. revert inRun. induction s as [|c s IH]; intros inRun.
  - exists (collapseFrom inRun r). split; [now apply collapseFrom_allSpace | reflexivity].
  - simpl. destruct (isSpace c); [destruct inRun|].
    + apply IH.
    + destruct (IH true) as (e & He & ->). now exists e.
    + destruct (IH false) as (e & He & ->). now exists e.
Qed.

Lemma trimStart_allSpace (e s : string) :
  allSpace e = true -> trimStart (e ++ s) = trimStart s.
Proof.
  induction e as [|c e IH]; intros He; [reflexivity|].
  simpl in He. apply andb_true_iff in He as [Hc He]. simpl. rewrite Hc. auto.
Qed.

Lemma trimEnd_allSpace (s e : string) :
  allSpace e = true -> trimEnd (s ++ e) = trimEnd s.
Proof.
  intros He. induction s as [|c s IH]; simpl.
  - induction e as [|c e IHe]; [reflexivity|].
    simpl in He. apply andb_true_iff in He as [Hc He]. simpl.
    now rewrite (IHe He), Hc.
  - now rewrite IH.
Qed.

Lemma trim_allSpace_l (e s : string) :
  allSpace e = true -> trim (e ++ s) = trim s.
Proof. intros He. unfold trim. now rewrite trimStart_allSpace. Qed.

Lemma trim_allSpace_r (s e : string) :
  allSpace e = true -> trim (s ++ e) = trim s.
Proof.
  intros He. unfold trim. induction s as [|c s IH]; simpl.
  - rewrite <- (app_empty_r e), trimStart_allSpace by assumption. reflexivity.
  - destruct (isSpace c); [assumption|].
    change (String c (s ++ e)) with (String c s ++ e).
    now apply trimEnd_allSpace.
Qed.

(** Leading and trailing white space does not survive [replace] and [trim]. *)
Lemma trim_collapse_padding (l s r : string) :
  allSpace l = true -> allSpace r = true ->
  trim (replaceSpaceRuns (l ++ s ++ r)) = trim (replaceSpaceRuns s).
Proof.
  intros Hl Hr. unfold replaceSpaceRuns.
  assert (Hs : trim (collapseFrom false (s ++ r)) = trim (collapseFrom false s)).
  { destruct (collapseFrom_trailing s r false Hr) as (e & He & ->).
    now apply trim_allSpace_r. }
  destruct l as [|c l]; [exact Hs|].
  rewrite collapseFrom_run by (assumption || discriminate).
  rewrite trim_allSpace_l by reflexivity.
  destruct (collapseFrom_trailing s r true Hr) as (e & He & ->).
  rewrite trim_allSpace_r by assumption.
  destruct (collapseFrom_flag s) as (e' & He' & ->).
  now rewrite trim_allSpace_l.
Qed.

Lemma prefix_toLowerCase (p s : string) :
  String.prefix p s = true ->
  String.prefix (toLowerCase p) (toLowerCase s) = true.
Proof.
  revert s. induction p as [|c p IH]; intros s H; [now destruct s|].
  destruct s as [|d s]; [discriminate|]. simpl in *.
  destruct (ascii_dec c d) as [->|Hne]; [|discriminate].
  destruct (ascii_dec (toLowerChar d) (toLowerChar d)); [auto | congruence].
Qed.

Lemma includes_cons (c : ascii) (s p : string) :
  includes (String c s) p = String.prefix p (String c s) || includes s p.
Proof. reflexivity. Qed.

(** Lower-casing keeps occurrences. *)
Lemma includes_toLowerCase (s p : string) :
  includes s p = true -> includes (toLowerCase s) (toLowerCase p) = true.
Proof.
  induction s as [|c s IH]; intros H.
  - destruct p; [reflexivity | discriminate H].
  - rewrite includes_cons in H.
    change (toLowerCase (String c s))
      with (String (toLowerChar c) (toLowerCase s)).
    rewrite includes_cons. apply orb_true_iff in H as [H|H].
    + apply prefix_toLowerCase in H.
      change (toLowerCase (String c s))
        with (String (toLowerChar c) (toLowerCase s)) in H.
      now rewrite H.
    + rewrite (IH H). apply orb_true_r.
Qed.

End JsStringFacts.

(** ** Visual comparison *)

Module VisualTestFacts.
Import JsString JsStringFacts VisualTest.

#[local] Arguments String.append : simpl nomatch.

Lemma normalize_string (s : string) :
  normalize (JsStr s) = trim (replaceSpaceRuns (toLowerCase s)).
Proof. destruct s; reflexivity. Qed.

(** C2, as the specification states it, fails on its first example: white
    space inside a value is collapsed to one space, never removed. *)
Lemma cssValuesMatch_keeps_inner_space :
  cssValuesMatch (JsStr "Rgb( 1 , 2 , 3 )") (JsStr "rgb(1,2,3)") = false.
Proof. reflexivity. Qed.

(** C2 (amended): [cssValuesMatch] is reflexive and symmetric; it ignores
    case, leading and trailing white space, and which white space a
    non-empty run is made of (every run counts as one space, so a value with
    a run differs from the value without it); [null] matches the empty
    string and ["10px"] does not match ["11px"]. *)
Theorem cssValuesMatch_normalization :
  (forall v, cssValuesMatch v v = true) /\
  (forall v w, cssValuesMatch v w = cssValuesMatch w v) /\
  (forall s t, toLowerCase s = toLowerCase t ->
               cssValuesMatch (JsStr s) (JsStr t) = true) /\
  (forall l s r, allSpace l = true -> allSpace r = true ->
                 cssValuesMatch (JsStr (l ++ s ++ r)) (JsStr s) = true) /\
  (forall a w1 w2 b,
      allSpace w1 = true -> w1 <> "" -> allSpace w2 = true -> w2 <> "" ->
      cssValuesMatch (JsStr (a ++ w1 ++ b)) (JsStr (a ++ w2 ++ b)) = true) /\
  cssValuesMatch (JsStr "Rgb( 1 , 2 , 3 )") (JsStr "rgb( 1 , 2 , 3 )") = true /\
  cssValuesMatch (JsStr "Rgb( 1 , 2 , 3 )") (JsStr "rgb(1,2,3)") = false /\
  cssValuesMatch JsNull (JsStr "") = true /\
  cssValuesMatch (JsStr "10px") (JsStr "11px") = false.
Proof.
  repeat split; try reflexivity.
  - intros v. apply String.eqb_refl.
  - intros v w. apply String.eqb_sym.
  - intros s t H. unfold cssValuesMatch.
    rewrite !normalize_string, H. apply String.eqb_refl.
  - intros l s r Hl Hr. unfold cssValuesMatch.
    rewrite !normalize_string, !toLowerCase_app.
    rewrite trim_collapse_padding by now rewrite allSpace_toLowerCase.
    apply String.eqb_refl.
  - intros a w1 w2 b H1 N1 H2 N2. unfold cssValuesMatch.
    rewrite !normalize_string, !toLowerCase_app. unfold replaceSpaceRuns.
    rewrite (collapseFrom_run_any _ (toLowerCase w1) (toLowerCase w2)).
    + apply String.eqb_refl.
    + now rewrite allSpace_toLowerCase.
    + intros E. now apply toLowerCase_empty in E.
    + now rewrite allSpace_toLowerCase.
    + intros E. now apply toLowerCase_empty in E.
Qed.

(** *** The two directions of a comparison *)

Lemma getProperty_styleEntries (f : string -> JsValue) (props : list string)
    (p : string) :
  In p props -> getProperty (styleEntries f props) p = f p.
Proof.
  induction props as [|q props IH]; intros Hin; [destruct Hin|].
  simpl. destruct (String.eqb_spec q p) as [->|Hne]; [reflexivity|].
  destruct Hin as [->|Hin]; [congruence | auto].
Qed.












(** *** Counting and scoring *)

Lemma compareEntries_total (selector : string) (gs os : Styles) (c : Comparison) :
  let c' := fold_left (compareEntry selector gs) os c in
  List.length (matches c') + List.length (mismatches c')
  = List.length (matches c) + List.length (mismatches c) + List.length os.
Proof.
  revert c. induction os as [|[p v] os IH]; intros c; cbn zeta; simpl; [lia|].
  cbn zeta in IH. rewrite IH. unfold compareEntry.
  destruct (cssValuesMatch v (getProperty gs p)); simpl;
    rewrite length_app; simpl; lia.
Qed.









Lemma comparePages_loaded (ensureDir : option string) (o g : Page)
    (oUrl gUrl pageName : string) :
  loaded ensureDir o g oUrl gUrl pageName ->
  comparePages ensureDir o g oUrl gUrl pageName =
  let c := compareCSSProperties o g in
  let s := score (List.length (matches c)) (List.length (mismatches c)) in
  {| page := pageName;
     passed := (80 <=? s)%float;
     differences := [];
     cssMatches := matches c;
     cssMismatches := mismatches c;
     matchPercentage := JsNumber.toFixed 2 s;
     error := None |}.
Proof.
  intros (H1 & H2 & H3 & H4 & H5). unfold comparePages.
  now rewrite H1, H2, H3, H4, H5.
Qed.



(** *** The theorems at sample pages *)

Lemma cssValuesMatch_normalization_witness :
  cssValuesMatch (JsStr ("  " ++ "10PX" ++ " ")) (JsStr "10PX") = true /\
  cssValuesMatch (JsStr "10PX") (JsStr "10px") = true.
Proof.
  destruct cssValuesMatch_normalization as (_ & _ & Hcase & Hpad & _).
  split; [apply Hpad; reflexivity | apply Hcase; reflexivity].
Defined.


End VisualTestFacts.

(** ** DOM snapshot *)

Module DomAnalyzerFacts.
Import JsString DomAnalyzer.

(** Induction on the live tree: a property of an element follows from the
    property of its child elements. *)
Lemma Element_children_ind (P : Element -> Prop) :
  (forall d ns, (forall c, In c (elementsOf ns) -> P c) -> P (mkElement d ns)) ->
  forall e, P e.
Proof.
  intros step. fix IH 1. intros [d ns]. apply step.
  induction ns as [|[c|t s] ns IHns]; simpl; intros c' Hin.
  - destruct Hin.
  - destruct Hin as [<-|Hin]; [apply IH | now apply IHns].
  - now apply IHns.
Qed.

(** The loop keeps, in order, the extractions of the kept children. *)
Lemma walkChildren_spec (extract : Element -> option DomNode) (ns : list Node) :
  walkChildren extract ns = omap extract (List.filter kept (elementsOf ns)).
Proof.
  induction ns as [|[c|t s] ns IH]; simpl; [reflexivity| |exact IH].
  unfold kept at 1.
  destruct (isScriptOrStyle (el_data c)); simpl; [exact IH|].
  destruct (positiveBox (el_rect (el_data c))); simpl; [|exact IH].
  destruct (extract c); now rewrite IH.
Qed.

Lemma extractElement_past_bound (e : Element) (depth : nat) :
  15 < depth -> extractElement e depth = None.
Proof.
  intros H. destruct e as [d ns]. simpl.
  destruct (Nat.ltb_spec 15 depth); [reflexivity | lia].
Qed.

Lemma extractElement_within_bound (e : Element) (depth : nat) :
  depth <= 15 ->
  extractElement e depth =
  Some {| dn_tag := toLowerCase (tagName (el_data e));
          dn_id := if String.eqb (el_id (el_data e)) "" then None
                   else Some (el_id (el_data e));
          dn_classes := classList (el_data e);
          dn_attributes := collectAttributes (el_attributes (el_data e));
          dn_styles := map (fun p => (p, el_style (el_data e) p)) styleProperties;
          dn_textContent := leafText e;
          dn_position := el_rect (el_data e);
          dn_children :=
            omap (fun c => extractElement c (S depth))
                 (List.filter kept (children e)) |}.
Proof.
  intros H. destruct e as [d ns]. simpl.
  destruct (Nat.ltb_spec 15 depth); [lia|].
  now rewrite walkChildren_spec.
Qed.

Lemma extractElement_some (e : Element) (depth : nat) (n : DomNode) :
  extractElement e depth = Some n -> depth <= 15.
Proof.
  intros H. destruct (Nat.le_gt_cases depth 15) as [|Hgt]; [assumption|].
  rewrite extractElement_past_bound in H by assumption. discriminate.
Qed.

Lemma extractElement_children (e : Element) (depth : nat) (n : DomNode) :
  extractElement e depth = Some n ->
  dn_children n =
  omap (fun c => extractElement c (S depth)) (List.filter kept (children e)).
Proof.
  intros H. pose proof (extractElement_some _ _ _ H) as Hd.
  rewrite extractElement_within_bound in H by assumption.
  now injection H as <-.
Qed.

Lemma extractElement_text (e : Element) (depth : nat) (n : DomNode) :
  extractElement e depth = Some n -> dn_textContent n = leafText e.
Proof.
  intros H. pose proof (extractElement_some _ _ _ H) as Hd.
  rewrite extractElement_within_bound in H by assumption.
  now injection H as <-.
Qed.

(** A child of a snapshot node is the extraction of a kept child element. *)
Lemma child_provenance (e : Element) (depth : nat) (n cn : DomNode) :
  extractElement e depth = Some n -> In cn (dn_children n) ->
  exists c, In c (children e) /\ kept c = true /\
            extractElement c (S depth) = Some cn.
Proof.
  intros H Hin. rewrite (extractElement_children _ _ _ H) in Hin.
  apply list_elem_of_In, list_elem_of_omap in Hin as (c & Hc & Hx).
  apply list_elem_of_In, filter_In in Hc as [Hc Hk]. now exists c.
Qed.

(** Every node of a snapshot is the extraction of an element of the live
    tree at the same depth. *)
Lemma snapshot_provenance (r : Element) (depth : nat) (root : DomNode)
    (k : nat) (n : DomNode) :
  extractElement r depth = Some root -> AtDepth root k n ->
  exists e, SourceAt r k e /\ extractElement e (depth + k) = Some n.
Proof.
  intros Hr Hat. induction Hat as [|k parent child Hat IH Hin].
  - exists r. split; [constructor | now rewrite Nat.add_0_r].
  - destruct IH as (e & Hs & He).
    destruct (child_provenance _ _ _ _ He Hin) as (c & Hc & Hk & Hx).
    exists c. split; [now apply (SourceChild r k e) | now rewrite Nat.add_succ_r].
Qed.

Lemma structure_root (doc : Document) (root : DomNode) :
  structure (analyzeDOMStructure doc) = Some root ->
  exists r, appRoot doc = Some r /\ extractElement r 0 = Some root.
Proof.
  unfold analyzeDOMStructure. simpl.
  destruct (appRoot doc) as [r|]; [|discriminate]. intros H. now exists r.
Qed.

Lemma firstBorn_AtDepth (k : nat) (root n : DomNode) :
  DomSamples.firstBorn k root = Some n -> AtDepth root k n.
Proof.
  assert (H : forall k a b j, AtDepth root j a ->
                DomSamples.firstBorn k a = Some b -> AtDepth root (k + j) b).
  { clear. induction k as [|k IH]; intros a b j Ha Hb; simpl in *.
    - now injection Hb as <-.
    - destruct (dn_children a) as [|c cs] eqn:Hc; [discriminate|].
      rewrite <- Nat.add_succ_r. apply (IH c b (S j)); [|assumption].
      apply (AtChild root j a c Ha). rewrite Hc. now left. }
  intros Hn. rewrite <- (Nat.add_0_r k). apply (H k root n 0); [constructor | assumption].
Qed.

Lemma omap_all_none {A B : Type} (f : A -> option B) (l : list A) :
  (forall a, f a = None) -> omap f l = [].
Proof.
  intros H. induction l as [|a l IH]; [reflexivity|].
  cbn. now rewrite H.
Qed.

(** C3: no node of a snapshot lies deeper than 15 levels below the root; a
    call past that bound returns [null], and such a result is not kept as a
    child: a node at depth 15 has no children. *)
Theorem snapshot_depth_bound (doc : Document) (root : DomNode) (k : nat)
    (n : DomNode) :
  structure (analyzeDOMStructure doc) = Some root ->
  AtDepth root k n ->
  k <= 15 /\
  (forall e depth, 15 < depth -> extractElement e depth = None) /\
  (k = 15 -> dn_children n = []).
Proof.
  intros Hs Hat. destruct (structure_root _ _ Hs) as (r & _ & Hr).
  destruct (snapshot_provenance _ _ _ _ _ Hr Hat) as (e & _ & He).
  split; [exact (extractElement_some _ _ _ He)|].
  split; [exact extractElement_past_bound|].
  intros ->. rewrite (extractElement_children _ _ _ He).
  apply omap_all_none. intros c. apply extractElement_past_bound. simpl. lia.
Qed.







Lemma leafText_spec (e : Element) :
  (leafText e <> None <-> exists c, childNodes e = [c] /\ nodeType c = 3) /\
  (forall c, childNodes e = [c] -> nodeType c = 3 ->
             leafText e = Some (trim (textContent e))).
Proof.
  unfold leafText. destruct (childNodes e) as [|c [|c' ns]].
  - split; [split; [congruence | intros (c & H & _); discriminate]|].
    intros c H. discriminate.
  - destruct (Nat.eqb_spec (nodeType c) 3) as [E|E].
    + split; [split; [intros _; now exists c | discriminate]|]. reflexivity.
    + split; [split; [congruence | intros (c0 & H & H3); congruence]|].
      intros c0 H H3. congruence.
  - split; [split; [congruence | intros (c0 & H & _); discriminate]|].
    intros c0 H. discriminate.
Qed.

(** C5: the text field of a snapshot node is populated exactly when the
    element it was extracted from has a single child node and that node is a
    text node; the field then holds the trimmed text of the element. *)
Theorem snapshot_leaf_text (doc : Document) (root : DomNode) (k : nat)
    (n : DomNode) :
  structure (analyzeDOMStructure doc) = Some root ->
  AtDepth root k n ->
  exists r e,
    appRoot doc = Some r /\ SourceAt r k e /\ extractElement e k = Some n /\
    (dn_textContent n <> None <->
     exists c, childNodes e = [c] /\ nodeType c = 3) /\
    (forall c, childNodes e = [c] -> nodeType c = 3 ->
               dn_textContent n = Some (trim (textContent e))) /\
    (forall s, childNodes e = [CharacterData 3 s] ->
               dn_textContent n = Some (trim s)).
Proof.
  intros Hs Hat. destruct (structure_root _ _ Hs) as (r & Hroot & Hr).
  destruct (snapshot_provenance _ _ _ _ _ Hr Hat) as (e & Hsrc & He).
  simpl in He. exists r, e.
  rewrite (extractElement_text _ _ _ He).
  destruct (leafText_spec e) as [Hiff Hval].
  repeat split; try assumption; try apply Hiff.
  intros s Hc. rewrite (Hval _ Hc eq_refl).
  destruct e as [d ns]. simpl in Hc. subst ns. simpl.
  now rewrite JsStringFacts.app_empty_r.
Qed.

(** C10: the detected container is always the root of the snapshot, whatever
    its own box and tag: the tests on the box and on the tag are made on the
    children that the walk visits, never on the element the extraction
    starts from. *)
Theorem root_always_included (doc : Document) (r : Element) :
  appRoot doc = Some r ->
  exists n,
    structure (analyzeDOMStructure doc) = Some n /\
    dn_tag n = toLowerCase (tagName (el_data r)) /\
    dn_position n = el_rect (el_data r) /\
    dn_children n =
      omap (fun c => extractElement c 1) (List.filter kept (children r)).
Proof.
  intros Hr. unfold analyzeDOMStructure. simpl. rewrite Hr.
  rewrite extractElement_within_bound by lia.
  eexists. split; [reflexivity|]. repeat split.
Qed.


(** *** The theorems at sample documents *)

Lemma snapshot_depth_bound_witness :
  structure (analyzeDOMStructure DomSamples.deepDocument) = Some DomSamples.deepSnapshot /\
  DomSamples.firstBorn 15 DomSamples.deepSnapshot = Some DomSamples.deepLeaf /\
  15 <= 15 /\ dn_children DomSamples.deepLeaf = [].
Proof.
  assert (Hs : structure (analyzeDOMStructure DomSamples.deepDocument)
               = Some DomSamples.deepSnapshot) by (vm_compute; reflexivity).
  assert (Hf : DomSamples.firstBorn 15 DomSamples.deepSnapshot = Some DomSamples.deepLeaf)
    by (vm_compute; reflexivity).
  destruct (snapshot_depth_bound DomSamples.deepDocument DomSamples.deepSnapshot 15
              DomSamples.deepLeaf Hs (firstBorn_AtDepth _ _ _ Hf)) as (Hk & _ & Hc).
  split; [exact Hs|]. split; [exact Hf|]. split; [exact Hk | exact (Hc eq_refl)].
Defined.


Lemma snapshot_leaf_text_witness :
  dn_textContent DomSamples.mixedFirst = Some "Hello" /\
  exists e c, extractElement e 1 = Some DomSamples.mixedFirst /\
              childNodes e = [c] /\ nodeType c = 3.
Proof.
  assert (Hs : structure (analyzeDOMStructure DomSamples.mixedDocument)
               = Some DomSamples.mixedSnapshot) by (vm_compute; reflexivity).
  assert (Hf : DomSamples.firstBorn 1 DomSamples.mixedSnapshot = Some DomSamples.mixedFirst)
    by (vm_compute; reflexivity).
  assert (Ht : dn_textContent DomSamples.mixedFirst = Some "Hello")
    by (vm_compute; reflexivity).
  destruct (snapshot_leaf_text DomSamples.mixedDocument DomSamples.mixedSnapshot 1
              DomSamples.mixedFirst Hs (firstBorn_AtDepth _ _ _ Hf))
    as (r & e & _ & _ & He & Hiff & _).
  split; [exact Ht|].
  destruct (proj1 Hiff) as (c & Hc & H3); [rewrite Ht; discriminate|].
  exists e, c. auto.
Defined.

Lemma root_always_included_witness :
  positiveBox (el_rect (el_data DomSamples.mixedRoot)) = false /\
  exists n, structure (analyzeDOMStructure DomSamples.mixedDocument) = Some n /\
            dn_tag n = "div".
Proof.
  split; [vm_compute; reflexivity|].
  destruct (root_always_included DomSamples.mixedDocument DomSamples.mixedRoot)
    as (n & Hn & Htag & _); [vm_compute; reflexivity|].
  exists n. split; [exact Hn | exact Htag].
Defined.

End DomAnalyzerFacts.

(** ** Network capture *)

Module NetworkCaptureFacts.
Import JsString JsStringFacts NetworkCapture.

Lemma run_cons (st : State) (ev : Event) (events : list Event) :
  run st (ev :: events) = run (step st ev) events.
Proof. reflexivity. Qed.

Lemma run_app (st : State) (a b : list Event) :
  run st (a ++ b) = run (run st a) b.
Proof. apply fold_left_app. Qed.

(** *** The two-sided filter *)

Lemma isApiCall_spec (url : string) :
  isApiCall url = true <->
  (exists p, In p apiPatterns /\ includes (toLowerCase url) p = true) /\
  (forall p, In p excludePatterns -> includes (toLowerCase url) p = false).
Proof.
  unfold isApiCall. rewrite andb_true_iff, negb_true_iff, existsb_exists.
  split; intros [Ha He]; (split; [exact Ha|]).
  - intros p Hp. destruct (includes (toLowerCase url) p) eqn:E; [|reflexivity].
    rewrite <- He. symmetry. apply existsb_exists. now exists p.
  - destruct (existsb _ excludePatterns) eqn:E; [|reflexivity].
    apply existsb_exists in E as (p & Hp & Hi). now rewrite (He p Hp) in Hi.
Qed.

Lemma isApiCall_excluded (url p : string) :
  In p excludePatterns -> toLowerCase p = p -> includes url p = true ->
  isApiCall url = false.
Proof.
  intros Hp Hlow Hi. destruct (isApiCall url) eqn:E; [|reflexivity].
  apply isApiCall_spec in E as [_ He].
  apply includes_toLowerCase in Hi. rewrite Hlow in Hi.
  now rewrite (He p Hp) in Hi.
Qed.

(** *** Invariants of the listeners *)

Lemma wellFormed_initial : wellFormed initial.
Proof.
  unfold wellFormed, initial. simpl.
  split; [constructor|].
  split; [intros k rd H; rewrite lookup_empty in H; discriminate|].
  split; [intros h s H; rewrite lookup_empty in H; discriminate|].
  intros f calls H. rewrite lookup_empty in H. discriminate.
Qed.

Lemma wellFormed_step (st : State) (ev : Event) :
  wellFormed st -> wellFormed (step st ev).
Proof.
  intros Hwf. pose proof Hwf as (Hc & Hm & Hw & Hf).
  destruct ev as [request now1 r36 now2 | response | h outcome | filename ok]; simpl.
  - unfold onRequest. destruct (isApiCall (req_url request)) eqn:E;
      [|exact Hwf].
    split; [exact Hc|]. split; [|split; [exact Hw | exact Hf]].
    simpl. intros k rd Hk. destruct (decide (req_key request = k)) as [Heq|Hne]; [subst k|].
    + rewrite lookup_insert_eq in Hk. now injection Hk as <-.
    + rewrite lookup_insert_ne in Hk by assumption. now apply (Hm k).
  - unfold onResponse.
    destruct (requestMap st !! req_key (resp_request response)) as [rd|] eqn:E;
      [|exact Hwf].
    destruct (isApiCall (resp_url response)); [|exact Hwf].
    split; [exact Hc|]. split; [exact Hm|]. split; [|exact Hf].
    simpl. intros h s Hs. destruct (decide (nextHandler st = h)) as [Heq|Hne]; [subst h|].
    + rewrite lookup_insert_eq in Hs. injection Hs as <-. simpl.
      split; [now apply (Hm _ _ E) | lia].
    + rewrite lookup_insert_ne in Hs by assumption.
      destruct (Hw h s Hs). split; [assumption | lia].
  - unfold onTextSettled. destruct (waiting st !! h) as [s|] eqn:E;
      [|exact Hwf].
    split; [|split; [|split; [|exact Hf]]]; simpl.
    + destruct (responseBodyValue _ outcome); [|exact Hc].
      apply Forall_app. split; [exact Hc|]. constructor; [|constructor].
      simpl. now apply (Hw h s E).
    + intros k rd Hk. apply lookup_delete_Some in Hk as [_ Hk]. now apply (Hm k).
    + intros h' s' Hs'. apply lookup_delete_Some in Hs' as [_ Hs']. now apply Hw.
  - unfold onSaveToFile. destruct ok; [|exact Hwf].
    split; [exact Hc|]. split; [exact Hm|]. split; [exact Hw|]. simpl.
    intros f calls Hs. destruct (decide (filename = f)) as [Heq|Hne]; [subst f|].
    + rewrite lookup_insert_eq in Hs. now injection Hs as <-.
    + rewrite lookup_insert_ne in Hs by assumption. now apply (Hf f).
Qed.

Lemma wellFormed_run (events : list Event) (st : State) :
  wellFormed st -> wellFormed (run st events).
Proof.
  revert st. induction events as [|ev events IH]; intros st H; [exact H|].
  rewrite run_cons. apply IH. now apply wellFormed_step.
Qed.

(** C6: a URL is in scope exactly when its lower-cased form contains an
    allow-list fragment and no deny-list fragment; a URL that contains both
    "/api/" and ".png" is out of scope, and no call with that URL is ever in
    the finalized list or in a saved file. *)
Theorem isApiCall_two_sided (url : string) :
  (isApiCall url = true <->
   (exists p, In p apiPatterns /\ includes (toLowerCase url) p = true) /\
   (forall p, In p excludePatterns -> includes (toLowerCase url) p = false)) /\
  (includes url "/api/" = true -> includes url ".png" = true ->
   isApiCall url = false /\
   forall events,
     (forall call, In call (getApiCalls (run initial events)) ->
                   rd_url (call_request call) <> url) /\
     (forall f calls call, files (run initial events) !! f = Some calls ->
                           In call calls -> rd_url (call_request call) <> url)).
Proof.
  split; [apply isApiCall_spec|]. intros _ Hpng.
  assert (Hout : isApiCall url = false).
  { apply (isApiCall_excluded url ".png"); [simpl; tauto | reflexivity | exact Hpng]. }
  split; [exact Hout|]. intros events.
  destruct (wellFormed_run events initial wellFormed_initial) as (Hc & _ & _ & Hf).
  split.
  - intros call Hin E. rewrite List.Forall_forall in Hc.
    specialize (Hc call Hin). rewrite E, Hout in Hc. discriminate.
  - intros f calls call Hfc Hin E. specialize (Hf f calls Hfc).
    rewrite List.Forall_forall in Hf.
    specialize (Hf call Hin). rewrite E, Hout in Hf. discriminate.
Qed.


(** *** A request that is never answered *)

Lemma noHandlerFor_step (key : nat) (st : State) (ev : Event) :
  isResponseTo key ev = false -> noHandlerFor key st ->
  noHandlerFor key (step st ev).
Proof.
  intros Hev Hno.
  destruct ev as [request now1 r36 now2 | response | h outcome | filename ok]; simpl.
  - unfold onRequest. now destruct (isApiCall (req_url request)).
  - unfold onResponse.
    destruct (requestMap st !! req_key (resp_request response)); [|exact Hno].
    destruct (isApiCall (resp_url response)); [|exact Hno].
    intros h s Hs. simpl in Hs.
    destruct (decide (nextHandler st = h)) as [Heq|Hne]; [subst h|].
    + rewrite lookup_insert_eq in Hs. injection Hs as <-. simpl.
      simpl in Hev. now apply Nat.eqb_neq in Hev.
    + rewrite lookup_insert_ne in Hs by assumption. now apply (Hno h).
  - unfold onTextSettled. destruct (waiting st !! h); [|exact Hno].
    intros h' s' Hs'. simpl in Hs'.
    apply lookup_delete_Some in Hs' as [_ Hs']. now apply (Hno h').
  - unfold onSaveToFile. now destruct ok.
Qed.

Lemma agreeExcept_step (key : nat) (st st' : State) (ev : Event) :
  isResponseTo key ev = false -> agreeExcept key st st' ->
  agreeExcept key (step st ev) (if isRequestOf key ev then st' else step st' ev).
Proof.
  intros Hev Hag. pose proof Hag as (Ha & Hw & Hn & Hf & Hm & Hno).
  assert (Hno' : noHandlerFor key (step st ev)) by now apply noHandlerFor_step.
  destruct ev as [request now1 r36 now2 | response | h outcome | filename ok];
    cbn [step isRequestOf isResponseTo] in *.
  - unfold onRequest in *.
    destruct (Nat.eqb_spec (req_key request) key) as [Hk|Hk];
      (destruct (isApiCall (req_url request)); [|exact Hag]);
      refine (conj _ (conj _ (conj _ (conj _ (conj _ Hno')))));
      cbn [apiCalls requestMap waiting nextHandler files];
      try assumption.
    + now rewrite Hk, delete_insert_eq.
    + rewrite Hm. symmetry. apply delete_insert_ne. congruence.
  - apply Nat.eqb_neq in Hev. unfold onResponse in *.
    rewrite Hm, lookup_delete_ne by congruence.
    destruct (requestMap st !! req_key (resp_request response)) as [rd|];
      [|exact Hag].
    destruct (isApiCall (resp_url response)); [|exact Hag].
    refine (conj _ (conj _ (conj _ (conj _ (conj _ Hno')))));
      cbn [apiCalls requestMap waiting nextHandler files];
      try assumption; congruence.
  - unfold onTextSettled in *. rewrite Hw.
    destruct (waiting st !! h) as [s|]; [|exact Hag].
    refine (conj _ (conj _ (conj _ (conj _ (conj _ Hno')))));
      cbn [apiCalls requestMap waiting nextHandler files];
      rewrite ?Ha, ?Hw, ?Hn, ?Hf, ?Hm; try reflexivity.
    apply delete_delete.
  - unfold onSaveToFile in *. destruct ok; [|exact Hag].
    refine (conj _ (conj _ (conj _ (conj _ (conj _ Hno')))));
      cbn [apiCalls requestMap waiting nextHandler files];
      try assumption; congruence.
Qed.

Lemma agreeExcept_run (key : nat) (events : list Event) (st st' : State) :
  forallb (fun ev => negb (isResponseTo key ev)) events = true ->
  agreeExcept key st st' ->
  agreeExcept key (run st events)
    (run st' (List.filter (fun ev => negb (isRequestOf key ev)) events)).
Proof.
  revert st st'. induction events as [|ev events IH]; intros st st' Hev Hag;
    [exact Hag|].
  simpl in Hev. apply andb_true_iff in Hev as [Hev Hrest].
  apply negb_true_iff in Hev.
  rewrite run_cons. simpl List.filter.
  pose proof (agreeExcept_step key st st' ev Hev Hag) as Hstep.
  destruct (isRequestOf key ev); cbn [negb]; [|rewrite run_cons]; now apply IH.
Qed.

Lemma pending_step (key : nat) (st : State) (ev : Event) :
  isResponseTo key ev = false -> noHandlerFor key st ->
  is_Some (requestMap st !! key) -> is_Some (requestMap (step st ev) !! key).
Proof.
  intros Hev Hno Hp.
  destruct ev as [request now1 r36 now2 | response | h outcome | filename ok]; simpl.
  - unfold onRequest. destruct (isApiCall (req_url request)); [|exact Hp].
    simpl. destruct (decide (req_key request = key)) as [->|Hne].
    + rewrite lookup_insert_eq. eauto.
    + now rewrite lookup_insert_ne.
  - unfold onResponse.
    destruct (requestMap st !! req_key (resp_request response)); [|exact Hp].
    now destruct (isApiCall (resp_url response)).
  - unfold onTextSettled. destruct (waiting st !! h) as [s|] eqn:E; [|exact Hp].
    simpl. rewrite lookup_delete_ne; [exact Hp | now apply (Hno h s)].
  - unfold onSaveToFile. now destruct ok.
Qed.

Lemma pending_run (key : nat) (events : list Event) (st : State) :
  forallb (fun ev => negb (isResponseTo key ev)) events = true ->
  noHandlerFor key st ->
  is_Some (requestMap st !! key) -> is_Some (requestMap (run st events) !! key).
Proof.
  revert st. induction events as [|ev events IH]; intros st Hev Hno Hp; [exact Hp|].
  simpl in Hev. apply andb_true_iff in Hev as [Hev Hrest].
  apply negb_true_iff in Hev. rewrite run_cons.
  apply IH; [assumption | now apply noHandlerFor_step | now apply pending_step].
Qed.

Lemma pending_after_request (key : nat) (events : list Event) (st : State)
    (request : Request) (now1 : Z) (r36 : string) (now2 : Z) :
  forallb (fun ev => negb (isResponseTo key ev)) events = true ->
  noHandlerFor key st ->
  In (RequestEvent request now1 r36 now2) events ->
  req_key request = key -> isApiCall (req_url request) = true ->
  is_Some (requestMap (run st events) !! key).
Proof.
  revert st. induction events as [|ev events IH]; intros st Hev Hno Hin Hk Hs;
    [destruct Hin|].
  simpl in Hev. apply andb_true_iff in Hev as [Hev Hrest].
  apply negb_true_iff in Hev. rewrite run_cons.
  destruct Hin as [->|Hin].
  - apply pending_run; [assumption | now apply noHandlerFor_step |].
    simpl. unfold onRequest. rewrite Hs. simpl.
    rewrite Hk, lookup_insert_eq. eauto.
  - apply IH; try assumption. now apply noHandlerFor_step.
Qed.

Lemma saves_run (st : State) (names : list string) :
  let st2 := run st (map (fun f => SaveToFile f true) names) in
  getApiCalls st2 = getApiCalls st /\
  forall f, In f names -> files st2 !! f = Some (getApiCalls st).
Proof.
  cbn zeta. revert st. induction names as [|n names IH]; intros st;
    [split; [reflexivity | intros f []]|].
  simpl map. rewrite run_cons.
  destruct (IH (step st (SaveToFile n true))) as [Hc Hf].
  split; [exact Hc|]. intros f Hin.
  destruct (in_dec string_dec f names) as [Hn|Hn]; [now apply Hf|].
  destruct Hin as [->|Hin]; [|contradiction].
  clear IH Hc Hf. revert st. induction names as [|m names IH]; intros st.
  - simpl. apply lookup_insert_eq.
  - simpl map. rewrite run_cons.
    assert (Hm : f <> m) by (intros ->; apply Hn; now left).
    assert (Hn' : ~ In f names) by (intros H; apply Hn; now right).
    specialize (IH Hn').
    assert (G : forall st0, files st0 !! f = Some (apiCalls st) ->
                  files (run st0 (map (fun f => SaveToFile f true) names)) !! f
                  = Some (apiCalls st)).
    { clear -Hn'. induction names as [|k names IHn]; intros st0 H0; [exact H0|].
      simpl map. rewrite run_cons. apply IHn; [intros H; apply Hn'; now right|].
      simpl. rewrite lookup_insert_ne; [exact H0|].
      intros ->. apply Hn'. now left. }
    apply G. simpl. rewrite lookup_insert_ne by congruence. apply lookup_insert_eq.
Qed.

(** C7: when no response event answers the request filed under [key], the
    finalized list and every saved file are what they would be had the
    request never been issued; an in-scope request of that kind stays in the
    pending map; and saving, however often, returns and writes the same
    finalized list. *)
Theorem unanswered_request_never_finalized (events : list Event) (key : nat) :
  forallb (fun ev => negb (isResponseTo key ev)) events = true ->
  let st := run initial events in
  let st' :=
    run initial (List.filter (fun ev => negb (isRequestOf key ev)) events) in
  getApiCalls st = getApiCalls st' /\
  files st = files st' /\
  (forall request now1 r36 now2,
      In (RequestEvent request now1 r36 now2) events ->
      req_key request = key -> isApiCall (req_url request) = true ->
      is_Some (requestMap st !! key)) /\
  (forall names,
      let saved := run st (map (fun f => SaveToFile f true) names) in
      getApiCalls saved = getApiCalls st' /\
      forall f, In f names -> files saved !! f = Some (getApiCalls st')).
Proof.
  intros Hev st st'.
  assert (Hinit : agreeExcept key initial initial).
  { refine (conj eq_refl (conj eq_refl (conj eq_refl (conj eq_refl (conj _ _))))).
    - symmetry. apply delete_empty.
    - intros h s H. unfold initial in H. simpl in H.
      rewrite lookup_empty in H. discriminate. }
  destruct (agreeExcept_run key events initial initial Hev Hinit)
    as (Ha & _ & _ & Hf & _ & _).
  fold st st' in Ha, Hf. unfold getApiCalls.
  split; [now rewrite Ha|]. split; [now rewrite Hf|]. split.
  - intros request now1 r36 now2 Hin Hk Hs.
    apply (pending_after_request key events initial request now1 r36 now2);
      try assumption.
    intros h s H. unfold initial in H. simpl in H.
    rewrite lookup_empty in H. discriminate.
  - intros names. cbn zeta. rewrite Ha.
    apply (saves_run st names).
Qed.


(** *** Reading the body of a response *)

Lemma waiting_step (h : nat) (s : Suspended) (st : State) (ev : Event) :
  wellFormed st -> waiting st !! h = Some s -> isSettleOf h ev = false ->
  waiting (step st ev) !! h = Some s.
Proof.
  intros (_ & _ & Hw & _) Hs Hev.
  destruct ev as [request now1 r36 now2 | response | h' outcome | filename ok];
    cbn [step isSettleOf] in *.
  - unfold onRequest. now destruct (isApiCall (req_url request)).
  - unfold onResponse.
    destruct (requestMap st !! req_key (resp_request response)); [|exact Hs].
    destruct (isApiCall (resp_url response)); [|exact Hs].
    cbn [waiting]. rewrite lookup_insert_ne; [exact Hs|].
    destruct (Hw h s Hs). lia.
  - apply Nat.eqb_neq in Hev. unfold onTextSettled.
    destruct (waiting st !! h'); [|exact Hs].
    cbn [waiting]. now rewrite lookup_delete_ne.
  - unfold onSaveToFile. now destruct ok.
Qed.

Lemma waiting_run (h : nat) (s : Suspended) (events : list Event) (st : State) :
  wellFormed st -> waiting st !! h = Some s ->
  forallb (fun ev => negb (isSettleOf h ev)) events = true ->
  waiting (run st events) !! h = Some s.
Proof.
  revert st. induction events as [|ev events IH]; intros st Hwf Hs Hev; [exact Hs|].
  simpl in Hev. apply andb_true_iff in Hev as [Hev Hrest].
  apply negb_true_iff in Hev. rewrite run_cons.
  apply IH; [now apply wellFormed_step | now apply waiting_step | assumption].
Qed.

(** What the handler does when the promise it awaits settles. *)
Lemma onTextSettled_spec (st : State) (h : nat) (s : Suspended)
    (outcome : option string) :
  waiting st !! h = Some s ->
  let st' := step st (TextSettled h outcome) in
  let contentType := headerOrEmpty (resp_headers (sus_response s)) "content-type" in
  requestMap st' = delete (req_key (resp_request (sus_response s))) (requestMap st) /\
  waiting st' = delete h (waiting st) /\
  apiCalls st' =
    match responseBodyValue contentType outcome with
    | Some b => (apiCalls st ++ [recordOf s b])%list
    | None => apiCalls st
    end.
Proof.
  intros Hs. cbn [step]. unfold onTextSettled. rewrite Hs. repeat split.
Qed.

(** C1: the handler at an exchange whose body does not parse.  The request
    is in scope, the response declares JSON and its body is not JSON: the
    exception of [JSON.parse] skips the push, so no call is recorded
    although the pending entry is evicted.  For the same exchange with the
    read itself rejected, the call is recorded with a null body. *)
Lemma parse_failure_drops_call :
  isApiCall (req_url NetSamples.tasksRequest) = true /\
  isApiCall (resp_url NetSamples.tasksResponse) = true /\
  Json.parse "<html>" = None /\
  getApiCalls (run initial NetSamples.brokenJsonTrace) = [] /\
  requestMap (run initial NetSamples.brokenJsonTrace) !! 7 = None /\
  map (fun call => r_body (call_response call))
      (getApiCalls
         (run initial
            [RequestEvent NetSamples.tasksRequest 1700000000000
               "0.4fzyo82mvyr" 1700000000001;
             ResponseEvent NetSamples.tasksResponse;
             TextSettled 0 None]))
  = [BodyNull].
Proof. vm_compute. repeat split. Qed.

(** The response handler around the read of the body: for a response to a
    pending in-scope request, whatever arrives while its body is read, the
    handler ends by evicting the pending entry.  When the read fails the
    call is appended to the finalized list with a null body; when the body
    is read it is appended with the text or, for a non-empty body declared
    as JSON that parses, with the parsed value; when such a body does not
    parse the exception is caught and no call is appended. *)
Theorem body_failure_handling (before meanwhile : list Event)
    (response : Response) (rd : RequestData) (outcome : option string) :
  let st0 := run initial before in
  requestMap st0 !! req_key (resp_request response) = Some rd ->
  isApiCall (resp_url response) = true ->
  forallb (fun ev => negb (isSettleOf (nextHandler st0) ev)) meanwhile = true ->
  let h := nextHandler st0 in
  let susp := {| sus_response := response; sus_requestData := rd |} in
  let st := run (step st0 (ResponseEvent response)) meanwhile in
  let st' := step st (TextSettled h outcome) in
  let contentType := headerOrEmpty (resp_headers response) "content-type" in
  waiting st !! h = Some susp /\
  requestMap st' !! req_key (resp_request response) = None /\
  waiting st' !! h = None /\
  (outcome = None ->
   getApiCalls st' = (getApiCalls st ++ [recordOf susp BodyNull])%list) /\
  (forall text, outcome = Some text ->
     includes contentType "application/json" = false \/ text = "" ->
     getApiCalls st' = (getApiCalls st ++ [recordOf susp (BodyText text)])%list) /\
  (forall text v, outcome = Some text ->
     includes contentType "application/json" = true -> text <> "" ->
     Json.parse text = Some v ->
     getApiCalls st' = (getApiCalls st ++ [recordOf susp (BodyJson v)])%list) /\
  (forall text, outcome = Some text ->
     includes contentType "application/json" = true -> text <> "" ->
     Json.parse text = None ->
     getApiCalls st' = getApiCalls st).
Proof.
  intros st0 Hpending Hscope Hmid h susp st st' contentType.
  assert (Hwf0 : wellFormed st0) by apply wellFormed_run, wellFormed_initial.
  assert (Hs1 : waiting (step st0 (ResponseEvent response)) !! h = Some susp).
  { cbn [step]. unfold onResponse. rewrite Hpending, Hscope. cbn [waiting].
    apply lookup_insert_eq. }
  assert (Hs : waiting st !! h = Some susp).
  { apply waiting_run; [now apply wellFormed_step | exact Hs1 | exact Hmid]. }
  destruct (onTextSettled_spec st h susp outcome Hs) as (Hm & Hw & Ha).
  fold st' in Hm, Hw, Ha. cbn [sus_response susp] in Hm, Ha.
  fold contentType in Ha. unfold getApiCalls.
  split; [exact Hs|]. split; [rewrite Hm; apply lookup_delete_eq|].
  split; [rewrite Hw; apply lookup_delete_eq|].
  split; [intros ->; exact Ha|]. split; [|split].
  - intros text -> Hplain. rewrite Ha. unfold responseBodyValue.
    destruct Hplain as [-> | ->]; [reflexivity|].
    now rewrite andb_false_r.
  - intros text v -> Hj Hne Hp. rewrite Ha. unfold responseBodyValue.
    rewrite Hj, Hp. destruct (String.eqb_spec text ""); [contradiction | reflexivity].
  - intros text -> Hj Hne Hp. rewrite Ha. unfold responseBodyValue.
    rewrite Hj, Hp. destruct (String.eqb_spec text ""); [contradiction | reflexivity].
Qed.


(** *** The theorems at sample traces *)

Lemma body_failure_handling_witness :
  getApiCalls
    (step (run (step (run initial NetSamples.readBefore)
                     (ResponseEvent NetSamples.tasksResponse))
               NetSamples.readMeanwhile)
          (TextSettled 0 None))
  = [{| call_request := NetSamples.tasksRequestData;
        call_response :=
          {| r_status := 200;
             r_headers := [("content-type", "application/json; charset=utf-8")];
             r_body := BodyNull;
             r_contentType := "application/json; charset=utf-8" |} |}].
Proof.
  destruct (body_failure_handling NetSamples.readBefore NetSamples.readMeanwhile
              NetSamples.tasksResponse NetSamples.tasksRequestData None)
    as (_ & _ & _ & Hnull & _); [vm_compute; reflexivity ..|].
  specialize (Hnull eq_refl). vm_compute in Hnull |- *. exact Hnull.
Defined.

Lemma isApiCall_two_sided_witness :
  isApiCall "https://app.asana.com/api/1.0/users/me/photo.png" = false.
Proof.
  destruct (isApiCall_two_sided "https://app.asana.com/api/1.0/users/me/photo.png")
    as [_ H].
  destruct H as [H _]; [vm_compute; reflexivity ..|]. exact H.
Defined.

Lemma unanswered_request_never_finalized_witness :
  map (fun call => rd_url (call_request call))
      (getApiCalls (run initial NetSamples.unansweredTrace))
  = ["https://app.asana.com/api/1.0/users/me"] /\
  is_Some (requestMap (run initial NetSamples.unansweredTrace) !! 7).
Proof.
  destruct (unanswered_request_never_finalized NetSamples.unansweredTrace 7)
    as (Ha & _ & Hp & _); [vm_compute; reflexivity|].
  split.
  - rewrite Ha. vm_compute. reflexivity.
  - apply (Hp NetSamples.tasksRequest 1700000000000%Z "0.4fzyo82mvyr"
              1700000000001%Z); [now left | reflexivity | vm_compute; reflexivity].
Defined.

End NetworkCaptureFacts.

(** ** Further properties of the network capture *)

Module NetworkAccountingFacts.
Import JsString JsStringFacts NetworkCapture NetworkCaptureFacts NetworkAccounting.

#[local] Arguments String.append : simpl nomatch.

(** *** Generated identifiers *)

Lemma string_of_uint_digits (d : Decimal.uint) :
  allDigits (NilEmpty.string_of_uint d) = true.
Proof. induction d; simpl; try reflexivity; exact IHd. Qed.

Lemma decimal_digits (n : Z) : allDigits (JsNumber.decimal n) = true.
Proof.
  unfold JsNumber.decimal, NilZero.string_of_uint.
  destruct (N.to_uint (Z.to_N n)); try reflexivity; apply (string_of_uint_digits (_ _)).
Qed.

Lemma to_uint_not_nil (n : N) : N.to_uint n <> Decimal.Nil.
Proof.
  destruct n as [|p]; [discriminate|]. apply DecimalPos.Unsigned.to_uint_nonnil.
Qed.

Lemma decimal_inj (a b : Z) :
  (0 <= a)%Z -> (0 <= b)%Z -> JsNumber.decimal a = JsNumber.decimal b -> a = b.
Proof.
  intros Ha Hb E. unfold JsNumber.decimal in E.
  assert (Hu : N.to_uint (Z.to_N a) = N.to_uint (Z.to_N b)).
  { pose proof (to_uint_not_nil (Z.to_N a)) as Na.
    pose proof (to_uint_not_nil (Z.to_N b)) as Nb.
    pose proof (NilZero.usu _ Na) as Ua. pose proof (NilZero.usu _ Nb) as Ub.
    rewrite E in Ua. rewrite Ua in Ub. now injection Ub. }
  apply DecimalN.Unsigned.to_uint_inj in Hu. lia.
Qed.

(** Two texts that start with digits and an underscore agree on both parts. *)
Lemma digits_underscore_inj (a b x y : string) :
  allDigits a = true -> allDigits b = true ->
  a ++ "_" ++ x = b ++ "_" ++ y -> a = b /\ x = y.
Proof.
  revert b. induction a as [|c a IH]; intros [|d b] Ha Hb E; simpl in *.
  - injection E as E. now split.
  - injection E as Ec E. subst d. apply andb_true_iff in Hb as [Hd _].
    discriminate.
  - injection E as Ec E. subst c. apply andb_true_iff in Ha as [Hc _].
    discriminate.
  - injection E as Ec E. subst d.
    apply andb_true_iff in Ha as [_ Ha]. apply andb_true_iff in Hb as [_ Hb].
    destruct (IH b Ha Hb E) as [-> ->]. now split.
Qed.

(** X1: two identifiers generated at non-negative clock readings are equal
    exactly when the clock readings are equal and the random texts agree on
    the nine characters kept after the first two. *)
Theorem generateId_injective (now1 now2 : Z) (r1 r2 : string) :
  (0 <= now1)%Z -> (0 <= now2)%Z ->
  (generateId now1 r1 = generateId now2 r2 <->
   now1 = now2 /\ substr r1 2 9 = substr r2 2 9).
Proof.
  intros H1 H2. unfold generateId. split.
  - intros E. simpl in E. injection E as E.
    apply digits_underscore_inj in E as [Ed Es]; try apply decimal_digits.
    split; [now apply decimal_inj | exact Es].
  - intros [-> ->]. reflexivity.
Qed.

Lemma generateId_injective_witness :
  generateId 1700000000000 "0.4fzyo82mvyr" = generateId 1700000000001 "0.k3j9x0aa1bq"
  <-> 1700000000000%Z = 1700000000001%Z /\
      substr "0.4fzyo82mvyr" 2 9 = substr "0.k3j9x0aa1bq" 2 9.
Proof.
  apply (generateId_injective 1700000000000 1700000000001); lia.
Defined.

(** *** The finalized list only grows *)

Lemma step_prefix (st : State) (ev : Event) :
  apiCalls st `prefix_of` apiCalls (step st ev).
Proof.
  destruct ev as [request now1 r36 now2 | response | h outcome | filename ok];
    cbn [step].
  - unfold onRequest. now destruct (isApiCall (req_url request)).
  - unfold onResponse.
    destruct (requestMap st !! req_key (resp_request response)); [|reflexivity].
    now destruct (isApiCall (resp_url response)).
  - unfold onTextSettled. destruct (waiting st !! h); [|reflexivity].
    cbn [apiCalls]. destruct (responseBodyValue _ outcome); [|reflexivity].
    now apply prefix_app_r.
  - unfold onSaveToFile. now destruct ok.
Qed.

Lemma run_prefix (events : list Event) (st : State) :
  apiCalls st `prefix_of` apiCalls (run st events).
Proof.
  revert st. induction events as [|ev events IH]; intros st; [reflexivity|].
  rewrite run_cons. etransitivity; [apply step_prefix | apply IH].
Qed.

Lemma filesLag_step (st : State) (ev : Event) :
  filesLag st -> filesLag (step st ev).
Proof.
  intros Hl f calls Hf.
  destruct ev as [request now1 r36 now2 | response | h outcome | filename ok].
  - etransitivity; [|apply step_prefix]. apply (Hl f).
    revert Hf. cbn [step]. unfold onRequest.
    now destruct (isApiCall (req_url request)).
  - etransitivity; [|apply step_prefix]. apply (Hl f).
    revert Hf. cbn [step]. unfold onResponse.
    destruct (requestMap st !! req_key (resp_request response)); [|easy].
    now destruct (isApiCall (resp_url response)).
  - etransitivity; [|apply step_prefix]. apply (Hl f).
    revert Hf. cbn [step]. unfold onTextSettled.
    now destruct (waiting st !! h).
  - revert Hf. cbn [step]. unfold onSaveToFile. destruct ok; [|apply Hl].
    cbn [files apiCalls]. intros Hf.
    destruct (decide (filename = f)) as [Heq|Hne]; [subst f|].
    + rewrite lookup_insert_eq in Hf. now injection Hf as <-.
    + rewrite lookup_insert_ne in Hf by assumption. now apply (Hl f).
Qed.

Lemma filesLag_run (events : list Event) (st : State) :
  filesLag st -> filesLag (run st events).
Proof.
  revert st. induction events as [|ev events IH]; intros st H; [exact H|].
  rewrite run_cons. apply IH. now apply filesLag_step.
Qed.

(** X2: the finalized list is append-only: whatever happens later, the calls
    recorded so far stay at the front in the same order; and every saved
    file holds a prefix of the finalized list, whatever was recorded since
    it was written. *)
Theorem finalized_list_append_only (events later : list Event) :
  let st := run initial events in
  let st' := run st later in
  getApiCalls st `prefix_of` getApiCalls st' /\
  (forall f calls, files st !! f = Some calls ->
                   calls `prefix_of` getApiCalls st) /\
  (forall f calls, files st' !! f = Some calls ->
                   calls `prefix_of` getApiCalls st').
Proof.
  cbn zeta. unfold getApiCalls.
  assert (Hinit : filesLag initial).
  { intros f calls H. unfold initial in H. simpl in H.
    rewrite lookup_empty in H. discriminate. }
  split; [apply run_prefix|]. split.
  - now apply filesLag_run.
  - rewrite <- run_app. now apply filesLag_run.
Qed.

(** *** Responses without a pending entry *)

Lemma absent_step (key : nat) (st : State) (ev : Event) :
  isRequestOf key ev = false -> requestMap st !! key = None ->
  requestMap (step st ev) !! key = None.
Proof.
  intros Hev Hm.
  destruct ev as [request now1 r36 now2 | response | h outcome | filename ok];
    cbn [step isRequestOf] in *.
  - apply Nat.eqb_neq in Hev. unfold onRequest.
    destruct (isApiCall (req_url request)); [|exact Hm].
    cbn [requestMap]. now rewrite lookup_insert_ne.
  - unfold onResponse.
    destruct (requestMap st !! req_key (resp_request response)); [|exact Hm].
    now destruct (isApiCall (resp_url response)).
  - unfold onTextSettled. destruct (waiting st !! h); [|exact Hm].
    cbn [requestMap]. apply lookup_delete_None. now right.
  - unfold onSaveToFile. now destruct ok.
Qed.

(** X3: while the pending map has no entry for a request and no request
    event files one, the responses to that request change nothing: the run
    ends in the state it reaches without them.  This covers a response
    whose request was issued before the listeners were attached and a
    second response after the entry was evicted. *)
Theorem response_without_pending_entry (events : list Event) (key : nat)
    (st : State) :
  requestMap st !! key = None ->
  forallb (fun ev => negb (isRequestOf key ev)) events = true ->
  run st events =
  run st (List.filter (fun ev => negb (isResponseTo key ev)) events).
Proof.
  revert st. induction events as [|ev events IH]; intros st Hm Hev; [reflexivity|].
  simpl in Hev. apply andb_true_iff in Hev as [Hev Hrest].
  apply negb_true_iff in Hev. rewrite run_cons. simpl List.filter.
  destruct (isResponseTo key ev) eqn:Hr; cbn [negb].
  - destruct ev as [| response | |]; try discriminate.
    cbn [isResponseTo] in Hr. apply Nat.eqb_eq in Hr.
    assert (Hstep : step st (ResponseEvent response) = st).
    { cbn [step]. unfold onResponse. now rewrite Hr, Hm. }
    rewrite Hstep. now apply IH.
  - rewrite run_cons. apply IH; [now apply absent_step | assumption].
Qed.

Lemma response_without_pending_entry_witness :
  run initial [ResponseEvent NetSamples.tasksResponse;
               RequestEvent NetSamples.usersRequest 1 "0.abcdefghijk" 2;
               ResponseEvent NetSamples.tasksResponse]
  = run initial [RequestEvent NetSamples.usersRequest 1 "0.abcdefghijk" 2].
Proof.
  apply (response_without_pending_entry
           [ResponseEvent NetSamples.tasksResponse;
            RequestEvent NetSamples.usersRequest 1 "0.abcdefghijk" 2;
            ResponseEvent NetSamples.tasksResponse] 7 initial);
    vm_compute; reflexivity.
Defined.

(** *** At most one call per response *)

Lemma count_cons (kind : Event -> bool) (ev : Event) (events : list Event) :
  count kind (ev :: events) = (if kind ev then 1 else 0) + count kind events.
Proof. unfold count. simpl. now destruct (kind ev). Qed.

Lemma accounting_step (st : State) (ev : Event) :
  wellFormed st ->
  List.length (apiCalls (step st ev)) + size (waiting (step st ev))
  <= List.length (apiCalls st) + size (waiting st)
     + (if isResponse ev then 1 else 0) /\
  List.length (apiCalls (step st ev))
  <= List.length (apiCalls st) + (if isSettle ev then 1 else 0).
Proof.
  intros (_ & _ & Hw & _).
  destruct ev as [request now1 r36 now2 | response | h outcome | filename ok];
    cbn [step isResponse isSettle].
  - unfold onRequest. destruct (isApiCall (req_url request)); cbn; lia.
  - unfold onResponse.
    destruct (requestMap st !! req_key (resp_request response)); [|lia].
    destruct (isApiCall (resp_url response)); [|lia].
    cbn [apiCalls waiting]. rewrite map_size_insert.
    destruct (waiting st !! nextHandler st); simpl; lia.
  - unfold onTextSettled. destruct (waiting st !! h) as [s|] eqn:E; [|lia].
    cbn [apiCalls waiting]. rewrite map_size_delete, E.
    assert (0 < size (waiting st)).
    { destruct (size (waiting st)) eqn:Hz; [|lia].
      apply map_size_empty_inv in Hz. rewrite Hz, lookup_empty in E.
      discriminate. }
    destruct (responseBodyValue _ outcome); rewrite ?length_app; simpl; lia.
  - unfold onSaveToFile. destruct ok; cbn; lia.
Qed.

Lemma accounting_run (events : list Event) (st : State) :
  wellFormed st ->
  List.length (apiCalls (run st events)) + size (waiting (run st events))
  <= List.length (apiCalls st) + size (waiting st) + count isResponse events /\
  List.length (apiCalls (run st events))
  <= List.length (apiCalls st) + count isSettle events.
Proof.
  revert st. induction events as [|ev events IH]; intros st Hwf.
  - unfold count. simpl. lia.
  - rewrite run_cons, !count_cons.
    destruct (IH (step st ev) (wellFormed_step _ _ Hwf)) as [H1 H2].
    destruct (accounting_step st ev Hwf) as [G1 G2]. lia.
Qed.

(** X4: a run records at most one call per response event and at most one
    per settled read: the calls recorded and the handlers still waiting
    number together at most the response events, and the calls alone at
    most the settle events. *)
Theorem calls_bounded_by_responses (events : list Event) :
  let st := run initial events in
  List.length (getApiCalls st) + size (waiting st) <= count isResponse events /\
  List.length (getApiCalls st) <= count isSettle events.
Proof.
  cbn zeta. unfold getApiCalls.
  destruct (accounting_run events initial wellFormed_initial) as [H1 H2].
  unfold initial in H1, H2 at 2. cbn [apiCalls waiting] in H1, H2.
  rewrite map_size_empty in H1. simpl in H1, H2. split; assumption.
Qed.

(** *** One request, one response, one saved call *)

Lemma step_request_in_scope (st : State) (request : Request) (now1 : Z)
    (random36 : string) (now2 : Z) :
  isApiCall (req_url request) = true ->
  step st (RequestEvent request now1 random36 now2) =
  {| apiCalls := apiCalls st;
     requestMap := <[req_key request := requestDataOf request now1 random36 now2]>
                     (requestMap st);
     waiting := waiting st;
     nextHandler := nextHandler st;
     files := files st |}.
Proof. intros H. cbn [step]. unfold onRequest. now rewrite H. Qed.

Lemma step_response_pending (st : State) (response : Response)
    (rd : RequestData) :
  requestMap st !! req_key (resp_request response) = Some rd ->
  isApiCall (resp_url response) = true ->
  step st (ResponseEvent response) =
  {| apiCalls := apiCalls st;
     requestMap := requestMap st;
     waiting := <[nextHandler st := {| sus_response := response;
                                       sus_requestData := rd |}]> (waiting st);
     nextHandler := S (nextHandler st);
     files := files st |}.
Proof. intros Hm H. cbn [step]. unfold onResponse. now rewrite Hm, H. Qed.

Lemma step_settle_accepted (st : State) (h : nat) (s : Suspended)
    (outcome : option string) (b : Body) :
  waiting st !! h = Some s ->
  responseBodyValue (headerOrEmpty (resp_headers (sus_response s)) "content-type")
                    outcome = Some b ->
  step st (TextSettled h outcome) =
  {| apiCalls := apiCalls st ++ [recordOf s b];
     requestMap := delete (req_key (resp_request (sus_response s))) (requestMap st);
     waiting := delete h (waiting st);
     nextHandler := nextHandler st;
     files := files st |}.
Proof. intros Hw Hb. cbn [step]. unfold onTextSettled. now rewrite Hw, Hb. Qed.

(** X5: for an in-scope request answered by an in-scope response whose body
    is read and accepted, the four steps request, response, read, save
    leave exactly one call, in the list and in the file: the request as it
    was observed, under its generated identifier, with the status, the
    headers, the content type and the body of the response; nothing stays
    pending. *)
Theorem single_pair_round_trip (request : Request) (response : Response)
    (now1 : Z) (random36 : string) (now2 : Z) (text filename : string)
    (b : Body) :
  isApiCall (req_url request) = true ->
  isApiCall (resp_url response) = true ->
  resp_request response = request ->
  responseBodyValue (headerOrEmpty (resp_headers response) "content-type")
                    (Some text) = Some b ->
  let st := run initial [RequestEvent request now1 random36 now2;
                         ResponseEvent response;
                         TextSettled 0 (Some text);
                         SaveToFile filename true] in
  let call :=
    {| call_request := requestDataOf request now1 random36 now2;
       call_response :=
         {| r_status := resp_status response;
            r_headers := resp_headers response;
            r_body := b;
            r_contentType :=
              headerOrEmpty (resp_headers response) "content-type" |} |} in
  getApiCalls st = [call] /\
  files st !! filename = Some [call] /\
  requestMap st = ∅ /\
  waiting st = ∅.
Proof.
  intros Hq Hr Hreq Hb. subst request. cbn zeta.
  change (run initial [?a; ?b; ?c; ?d])
    with (step (step (step (step initial a) b) c) d).
  rewrite (step_request_in_scope initial _ now1 random36 now2 Hq).
  erewrite step_response_pending;
    [|cbn [requestMap]; apply lookup_insert_eq | exact Hr].
  erewrite step_settle_accepted;
    [|cbn [waiting nextHandler initial]; apply lookup_insert_eq | exact Hb].
  cbn [step]. unfold onSaveToFile, getApiCalls, recordOf, initial.
  cbn [apiCalls requestMap waiting nextHandler files sus_response
       sus_requestData app].
  split; [reflexivity|]. split; [apply lookup_insert_eq|].
  split; now rewrite delete_insert_eq, delete_empty.
Qed.

Lemma single_pair_round_trip_witness :
  getApiCalls (run initial [RequestEvent NetSamples.usersRequest
                              1700000000002 "0.k3j9x0aa1bq" 1700000000003;
                            ResponseEvent NetSamples.usersResponse;
                            TextSettled 0 (Some "me");
                            SaveToFile "home-api-calls.json" true])
  = [{| call_request :=
          requestDataOf NetSamples.usersRequest 1700000000002 "0.k3j9x0aa1bq"
                        1700000000003;
        call_response :=
          {| r_status := 200;
             r_headers := [("content-type", "text/plain")];
             r_body := BodyText "me";
             r_contentType := "text/plain" |} |}].
Proof.
  destruct (single_pair_round_trip NetSamples.usersRequest
              NetSamples.usersResponse 1700000000002 "0.k3j9x0aa1bq"
              1700000000003 "me" "home-api-calls.json" (BodyText "me"))
    as (H & _); [vm_compute; reflexivity ..|].
  exact H.
Defined.

End NetworkAccountingFacts.

(** ** Where recorded calls come from *)

Module ProvenanceFacts.
Import JsString NetworkCapture NetworkCaptureFacts NetworkAccounting.

Lemma filed_later (events : list Event) (ev : Event) (key : nat)
    (rd : RequestData) :
  filed events key rd -> filed (events ++ [ev]) key rd.
Proof.
  intros (request & now1 & r36 & now2 & pre & post & -> & H).
  exists request, now1, r36, now2, pre, (post ++ [ev])%list.
  split; [|exact H]. now rewrite <- List.app_assoc.
Qed.

Lemma answered_later (events : list Event) (ev : Event) (rd : RequestData)
    (response : Response) :
  answered events rd response -> answered (events ++ [ev]) rd response.
Proof.
  intros (request & now1 & r36 & now2 & pre & mid & post & -> & H).
  exists request, now1, r36, now2, pre, mid, (post ++ [ev])%list.
  split; [|exact H].
  rewrite <- List.app_assoc. cbn [app]. now rewrite <- List.app_assoc.
Qed.

Lemma recorded_later (events : list Event) (ev : Event) (call : ApiCall) :
  recorded events call -> recorded (events ++ [ev]) call.
Proof.
  intros (s & h & outcome & b & Ha & Hin & Hb & ->).
  exists s, h, outcome, b. split; [now apply answered_later|].
  split; [apply in_or_app; now left|]. now split.
Qed.

Lemma traced_later (events : list Event) (ev : Event) (st : State) :
  traced events st -> traced (events ++ [ev]) st.
Proof.
  intros (Hm & Hw & Ha). split; [|split].
  - intros k rd H. now apply filed_later, Hm.
  - intros h s H. now apply answered_later, (Hw h).
  - eapply List.Forall_impl; [|exact Ha]. intros call. apply recorded_later.
Qed.

Lemma traced_step (events : list Event) (ev : Event) (st : State) :
  traced events st -> traced (events ++ [ev]) (step st ev).
Proof.
  intros Ht. pose proof (traced_later events ev st Ht) as (Hm & Hw & Ha).
  destruct ev as [request now1 r36 now2 | response | h outcome | filename ok];
    cbn [step].
  - unfold onRequest. destruct (isApiCall (req_url request)) eqn:Hin;
      [|now repeat split].
    split; [|split]; cbn [requestMap waiting apiCalls]; [|exact Hw | exact Ha].
    intros k rd Hk.
    destruct (decide (req_key request = k)) as [Heq|Hne].
    + rewrite Heq, lookup_insert_eq in Hk. injection Hk as <-.
      exists request, now1, r36, now2, events, []. now repeat split.
    + rewrite lookup_insert_ne in Hk by assumption. now apply Hm.
  - unfold onResponse.
    destruct (requestMap st !! req_key (resp_request response)) as [rd|] eqn:Hrd;
      [|now repeat split].
    destruct (isApiCall (resp_url response)) eqn:Hin; [|now repeat split].
    split; [|split]; cbn [requestMap waiting apiCalls]; [exact Hm | | exact Ha].
    intros h s Hs.
    destruct (decide (nextHandler st = h)) as [Heq|Hne].
    + rewrite Heq, lookup_insert_eq in Hs. injection Hs as <-.
      cbn [sus_requestData sus_response].
      destruct Ht as (Hm0 & _ & _).
      destruct (Hm0 _ _ Hrd)
        as (request & now1 & r36 & now2 & pre & post & -> & Hk & Hu & ->).
      exists request, now1, r36, now2, pre, post, [].
      split; [|now repeat split].
      rewrite <- List.app_assoc. reflexivity.
    + rewrite lookup_insert_ne in Hs by assumption. now apply (Hw h).
  - unfold onTextSettled. destruct (waiting st !! h) as [s|] eqn:Hs;
      [|now repeat split].
    split; [|split]; cbn [requestMap waiting apiCalls].
    + intros k rd Hk. apply lookup_delete_Some in Hk as [_ Hk]. now apply Hm.
    + intros h' s' Hs'. apply lookup_delete_Some in Hs' as [_ Hs'].
      now apply (Hw h').
    + destruct (responseBodyValue _ outcome) as [b|] eqn:Hb; [|exact Ha].
      apply Forall_app. split; [exact Ha|]. constructor; [|constructor].
      exists s, h, outcome, b. split; [now apply (Hw h)|].
      split; [apply in_or_app; right; now left|]. now split.
  - unfold onSaveToFile. destruct ok; now repeat split.
Qed.

Lemma traced_run (events : list Event) : traced events (run initial events).
Proof.
  induction events as [|ev events IH] using rev_ind.
  - split; [|split]; [intros k rd H | intros h s H | constructor];
      cbn in H; now rewrite lookup_empty in H.
  - rewrite run_app. now apply traced_step.
Qed.

(** X6: nothing is recorded that the trace does not hold: every call of
    the finalized list, and of every saved file, pairs an in-scope request
    event with a later in-scope response event for the same request key,
    carries the data filed at that request and the status and headers of
    that response, and has the body that a settled read of the trace
    evaluates to.  Every pending entry goes back to a request event under
    its key. *)
Theorem recorded_calls_come_from_trace (events : list Event) :
  Forall (recorded events) (getApiCalls (run initial events)) /\
  (forall f calls, files (run initial events) !! f = Some calls ->
                   Forall (recorded events) calls) /\
  (forall k rd, requestMap (run initial events) !! k = Some rd ->
                filed events k rd).
Proof.
  destruct (traced_run events) as (Hm & _ & Ha).
  split; [exact Ha|]. split; [|exact Hm].
  intros f calls Hf.
  assert (Hlag : filesLag (run initial events)).
  { apply NetworkAccountingFacts.filesLag_run. intros g cs H.
    cbn in H. now rewrite lookup_empty in H. }
  destruct (Hlag f calls Hf) as [rest Hrest].
  unfold getApiCalls in Ha. rewrite Hrest in Ha.
  now apply Forall_app in Ha as [Ha _].
Qed.

End ProvenanceFacts.

(** ** Further properties of the DOM analysis *)

Module DomQueriesFacts.
Import JsString JsStringFacts DomAnalyzer DomAnalyzerFacts DomQueries.

#[local] Arguments String.append : simpl nomatch.

(** *** The detected container *)

Lemma find_app {A : Type} (p : A -> bool) (l1 l2 : list A) :
  List.find p (l1 ++ l2) =
  match List.find p l1 with Some a => Some a | None => List.find p l2 end.
Proof.
  induction l1 as [|a l1 IH]; [reflexivity|]. simpl.
  now destruct (p a).
Qed.

(** [firstMatch] walks the tree in the order of [descendantsOrSelf]. *)
Lemma firstMatch_find (sel : Selector) (root : Element) :
  firstMatch sel root =
  List.find (fun e => selects sel (el_data e)) (descendantsOrSelf root).
Proof.
  induction root as [d ns IH] using Element_children_ind.
  simpl. destruct (selects sel d); [reflexivity|].
  induction ns as [|[c|t s] ns IHns]; [reflexivity| |].
  - rewrite find_app, <- (IH c) by now left.
    destruct (firstMatch sel c); [reflexivity|].
    apply IHns. intros c' Hc'. apply IH. now right.
  - apply IHns. intros c' Hc'. now apply IH.
Qed.

Lemma querySelector_find (doc : Document) (sel : Selector) :
  querySelector doc sel = firstSelected doc sel.
Proof.
  unfold querySelector, firstSelected, documentElements.
  destruct (documentElement doc); [apply firstMatch_find | reflexivity].
Qed.

(** X7: the container is chosen by the rank of the selector, not by
    position: the first element with [role="main"] if there is one, else
    the first with id [root], else the first with class [app], else the
    body; there is no container only when nothing matches and the document
    has no body. *)
Theorem appRoot_precedence (doc : Document) :
  let first := firstSelected doc in
  appRoot doc =
    match first (AttributeEquals "role" "main") with
    | Some e => Some e
    | None =>
        match first (IdIs "root") with
        | Some e => Some e
        | None =>
            match first (ClassIs "app") with
            | Some e => Some e
            | None => body doc
            end
        end
    end /\
  (forall e, In e (documentElements doc) ->
     selects (AttributeEquals "role" "main") (el_data e) = true ->
     exists r, appRoot doc = Some r /\
               selects (AttributeEquals "role" "main") (el_data r) = true) /\
  (appRoot doc = None <->
   (forall e, In e (documentElements doc) ->
      selects (AttributeEquals "role" "main") (el_data e) = false /\
      selects (IdIs "root") (el_data e) = false /\
      selects (ClassIs "app") (el_data e) = false) /\
   body doc = None).
Proof.
  cbn zeta. unfold appRoot, orElse. rewrite !querySelector_find.
  unfold firstSelected. split; [|split].
  - destruct (find _ _); [reflexivity|].
    destruct (find _ _); [reflexivity|]. now destruct (find _ _).
  - intros e Hin Hsel.
    destruct (find (fun e0 => selects (AttributeEquals "role" "main") (el_data e0))
                   (documentElements doc)) as [r|] eqn:Hf.
    + exists r. split; [reflexivity|]. now apply find_some in Hf.
    + now rewrite (find_none _ _ Hf e Hin) in Hsel.
  - split.
    + intros H.
      destruct (find (fun e0 => selects (AttributeEquals "role" "main") (el_data e0))
                     (documentElements doc)) eqn:H1; [discriminate|].
      destruct (find (fun e0 => selects (IdIs "root") (el_data e0))
                     (documentElements doc)) eqn:H2; [discriminate|].
      destruct (find (fun e0 => selects (ClassIs "app") (el_data e0))
                     (documentElements doc)) eqn:H3; [discriminate|].
      split; [|exact H]. intros e Hin.
      now rewrite (find_none _ _ H1 e Hin), (find_none _ _ H2 e Hin),
                  (find_none _ _ H3 e Hin).
    + intros [Hnone Hbody].
      assert (G : forall sel,
                 (forall e, In e (documentElements doc) ->
                            selects sel (el_data e) = false) ->
                 find (fun e0 => selects sel (el_data e0)) (documentElements doc)
                 = None).
      { intros sel Hs. destruct (find _ _) as [r|] eqn:Hf; [|reflexivity].
        apply find_some in Hf as [Hin Hr]. now rewrite (Hs r Hin) in Hr. }
      rewrite !G; [exact Hbody | | |]; intros e Hin; now apply Hnone.
Qed.

(** *** Attributes *)








(** *** Trimmed text *)

Lemma trimStart_head (s : string) (c : ascii) (r : string) :
  trimStart s = String c r -> isSpace c = false.
Proof.
  induction s as [|a s IH]; simpl; [discriminate|].
  destruct (isSpace a) eqn:Ea; [exact IH|]. now intros [= <- _].
Qed.

Lemma trimEnd_head (s : string) (c : ascii) (r : string) :
  trimEnd s = String c r -> exists s', s = String c s'.
Proof.
  destruct s as [|a s]; simpl; [discriminate|].
  destruct (trimEnd s); [destruct (isSpace a)|]; intros E;
    try discriminate; injection E as <- _; now exists s.
Qed.

Lemma trimEnd_last (s r : string) (c : ascii) :
  trimEnd s = r ++ String c "" -> isSpace c = false.
Proof.
  revert r. induction s as [|a s IH]; intros r; simpl.
  - destruct r; discriminate.
  - destruct (trimEnd s) as [|b t] eqn:E.
    + destruct (isSpace a) eqn:Ea; [destruct r; discriminate|].
      destruct r as [|x [|y r]]; simpl; intros H; try discriminate.
      now injection H as <-.
    + destruct r as [|x r]; simpl; intros H; [discriminate|].
      injection H as _ H. now apply (IH r).
Qed.

(** X9: a populated text field carries no white space at either end. *)
Theorem snapshot_text_trimmed (e : Element) (depth : nat) (n : DomNode)
    (t : string) :
  extractElement e depth = Some n ->
  dn_textContent n = Some t ->
  (forall c r, t = String c r -> isSpace c = false) /\
  (forall r c, t = r ++ String c "" -> isSpace c = false).
Proof.
  intros H Ht. rewrite (extractElement_text _ _ _ H) in Ht.
  unfold leafText in Ht.
  destruct (childNodes e) as [|x [|y l]]; try discriminate.
  destruct (Nat.eqb (nodeType x) 3); [|discriminate].
  injection Ht as <-. unfold trim. split.
  - intros c r E. destruct (trimEnd_head _ _ _ E) as [s' Hs'].
    now apply trimStart_head in Hs'.
  - intros r c E. now apply trimEnd_last in E.
Qed.

Lemma snapshot_text_trimmed_witness :
  exists n, extractElement MoreSamples.labelled 0 = Some n /\
            dn_textContent n = Some "New project" /\
            isSpace "N" = false /\ isSpace "t" = false.
Proof.
  destruct (extractElement MoreSamples.labelled 0) as [n|] eqn:He;
    [|vm_compute in He; discriminate].
  assert (Ht : dn_textContent n = Some "New project").
  { vm_compute in He. injection He as <-. reflexivity. }
  exists n. split; [reflexivity|]. split; [exact Ht|].
  destruct (snapshot_text_trimmed MoreSamples.labelled 0 n "New project" He Ht)
    as [Hhead Hlast].
  split.
  - apply (Hhead "N"%char "ew project"). reflexivity.
  - apply (Hlast "New projec" "t"%char). reflexivity.
Defined.

End DomQueriesFacts.

(** ** Interactive elements *)

Module InteractiveFacts.
Import JsString DomAnalyzer Interactive.

Lemma pushed_spec (dom : PageDom) (selector : string)
    (entry : Element -> InteractiveElement) (item : InteractiveElement) :
  In item (pushed dom selector entry) <->
  exists el, In el (querySelectorAll dom selector) /\ hasBox el = true /\
             item = entry el.
Proof.
  unfold pushed. rewrite in_map_iff. split.
  - intros (el & <- & Hin). apply filter_In in Hin as [Hin Hb]. now exists el.
  - intros (el & Hin & Hb & ->). exists el. split; [reflexivity|].
    apply filter_In. now split.
Qed.

Lemma positiveBox_spec (rect : DOMRect) :
  positiveBox rect = true ->
  (0 <? width rect)%float = true /\ (0 <? height rect)%float = true.
Proof. unfold positiveBox. intros H. now apply andb_true_iff in H. Qed.

(** X10: the list of interactive elements holds an entry for every element
    with a positive box that a query returns, and nothing else: every entry
    has a box of positive width and height; buttons come first, then
    inputs, then links; an element returned by two queries is listed once
    for each. *)
Theorem interactive_elements_listed (dom : PageDom) :
  let items := extractInteractiveElements dom in
  (forall item, In item items ->
     (0 <? width (position item))%float = true /\
     (0 <? height (position item))%float = true) /\
  (forall item, In item items <->
     (exists el, In el (querySelectorAll dom buttonSelector) /\
                 hasBox el = true /\ item = buttonOf el) \/
     (exists el, In el (querySelectorAll dom inputSelector) /\
                 hasBox el = true /\ item = inputOf dom el) \/
     (exists el, In el (querySelectorAll dom linkSelector) /\
                 hasBox el = true /\ item = linkOf dom el)) /\
  (exists buttons inputs links,
     items = (buttons ++ inputs ++ links)%list /\
     Forall (fun item => rank item = 0) buttons /\
     Forall (fun item => rank item = 1) inputs /\
     Forall (fun item => rank item = 2) links) /\
  (forall el, In el (querySelectorAll dom buttonSelector) ->
     In el (querySelectorAll dom linkSelector) -> hasBox el = true ->
     In (buttonOf el) items /\ In (linkOf dom el) items).
Proof.
  cbn zeta. unfold extractInteractiveElements.
  assert (Hchar : forall item,
    In item (pushed dom buttonSelector buttonOf
             ++ pushed dom inputSelector (inputOf dom)
             ++ pushed dom linkSelector (linkOf dom))%list <->
    (exists el, In el (querySelectorAll dom buttonSelector) /\
                hasBox el = true /\ item = buttonOf el) \/
    (exists el, In el (querySelectorAll dom inputSelector) /\
                hasBox el = true /\ item = inputOf dom el) \/
    (exists el, In el (querySelectorAll dom linkSelector) /\
                hasBox el = true /\ item = linkOf dom el)).
  { intros item. rewrite !in_app_iff, !pushed_spec. reflexivity. }
  split; [|split; [exact Hchar|split]].
  - intros item Hin. apply Hchar in Hin.
    destruct Hin as [(el & _ & Hb & ->)|[(el & _ & Hb & ->)|(el & _ & Hb & ->)]];
      now apply positiveBox_spec.
  - exists (pushed dom buttonSelector buttonOf),
           (pushed dom inputSelector (inputOf dom)),
           (pushed dom linkSelector (linkOf dom)).
    split; [reflexivity|].
    repeat split; apply List.Forall_forall; intros item Hin;
      apply pushed_spec in Hin as (el & _ & _ & ->); reflexivity.
  - intros el Hb Hl Hbox. split; apply Hchar.
    + left. now exists el.
    + right. right. now exists el.
Qed.

End InteractiveFacts.

(** ** Normal forms of CSS values *)

Module NormalFormFacts.
Import JsString JsStringFacts VisualTest NormalForm.

#[local] Arguments String.append : simpl nomatch.

Lemma isUpper_toLowerChar (c : ascii) : isUpper (toLowerChar c) = false.
Proof. destruct c as [[] [] [] [] [] [] [] []]; reflexivity. Qed.

Lemma toLowerCase_lowerCased (s : string) : lowerCased (toLowerCase s) = true.
Proof.
  induction s as [|c s IH]; simpl; [reflexivity|].
  now rewrite isUpper_toLowerChar, IH.
Qed.

Lemma lowerCased_fixed (s : string) : lowerCased s = true -> toLowerCase s = s.
Proof.
  induction s as [|c s IH]; simpl; [reflexivity|].
  intros H. apply andb_true_iff in H as [Hc Hs].
  unfold toLowerChar. apply negb_true_iff in Hc. rewrite Hc.
  now rewrite IH.
Qed.

Lemma lowerCased_collapseFrom (s : string) (inRun : bool) :
  lowerCased s = true -> lowerCased (collapseFrom inRun s) = true.
Proof.
  revert inRun. induction s as [|c s IH]; intros inRun; simpl; [reflexivity|].
  intros H. apply andb_true_iff in H as [Hc Hs].
  destruct (isSpace c); [destruct inRun|]; cbn [lowerCased].
  - now apply IH.
  - change (isUpper " ") with false. now apply IH.
  - rewrite Hc. now apply IH.
Qed.

Lemma lowerCased_trimStart (s : string) :
  lowerCased s = true -> lowerCased (trimStart s) = true.
Proof.
  induction s as [|c s IH]; simpl; [reflexivity|].
  intros H. destruct (isSpace c); [|exact H].
  apply andb_true_iff in H as [_ Hs]. auto.
Qed.

Lemma lowerCased_trimEnd (s : string) :
  lowerCased s = true -> lowerCased (trimEnd s) = true.
Proof.
  induction s as [|c s IH]; simpl; [reflexivity|].
  intros H. apply andb_true_iff in H as [Hc Hs]. specialize (IH Hs).
  destruct (trimEnd s); [destruct (isSpace c)|]; simpl in *;
    rewrite ?Hc; auto.
Qed.

Lemma singleSpaced_weaken (s : string) (inRun : bool) :
  singleSpaced inRun s = true -> singleSpaced false s = true.
Proof.
  destruct s as [|c s]; simpl; [reflexivity|].
  destruct (isSpace c); [|easy]. destruct inRun; [|easy].
  now rewrite andb_false_r.
Qed.

Lemma singleSpaced_collapseFrom (s : string) (inRun : bool) :
  singleSpaced inRun (collapseFrom inRun s) = true.
Proof.
  revert inRun. induction s as [|c s IH]; intros inRun; simpl; [reflexivity|].
  destruct (isSpace c) eqn:Ec; [destruct inRun|]; simpl.
  - apply IH.
  - apply IH.
  - rewrite Ec. apply IH.
Qed.

Lemma singleSpaced_fixed (s : string) (inRun : bool) :
  singleSpaced inRun s = true -> collapseFrom inRun s = s.
Proof.
  revert inRun. induction s as [|c s IH]; intros inRun; simpl; [reflexivity|].
  destruct (isSpace c).
  - intros H. apply andb_true_iff in H as [H Hs].
    apply andb_true_iff in H as [Hc Hr].
    apply Ascii.eqb_eq in Hc. subst c. destruct inRun; [discriminate|].
    now rewrite (IH true Hs).
  - intros H. now rewrite (IH false H).
Qed.

Lemma singleSpaced_trimStart (s : string) (inRun : bool) :
  singleSpaced inRun s = true -> singleSpaced false (trimStart s) = true.
Proof.
  revert inRun. induction s as [|c s IH]; intros inRun; [reflexivity|].
  cbn [trimStart]. destruct (isSpace c) eqn:Ec.
  - simpl. rewrite Ec. intros H. apply andb_true_iff in H as [_ Hs].
    now apply (IH true).
  - apply singleSpaced_weaken.
Qed.

Lemma singleSpaced_trimEnd (s : string) (inRun : bool) :
  singleSpaced inRun s = true -> singleSpaced inRun (trimEnd s) = true.
Proof.
  revert inRun. induction s as [|c s IH]; intros inRun; [reflexivity|].
  cbn [trimEnd singleSpaced]. destruct (trimEnd s) as [|b t] eqn:E.
  - destruct (isSpace c) eqn:Ec; [reflexivity|]. simpl. now rewrite Ec.
  - destruct (isSpace c) eqn:Ec; cbn [singleSpaced]; rewrite Ec.
    + intros H. apply andb_true_iff in H as [H Hs]. rewrite H.
      now apply (IH true).
    + apply IH.
Qed.

Lemma trimStart_fixed (s : string) :
  (forall c r, s = String c r -> isSpace c = false) -> trimStart s = s.
Proof.
  destruct s as [|c s]; [reflexivity|]. intros H. simpl.
  now rewrite (H c s eq_refl).
Qed.

Lemma trimEnd_idem (s : string) : trimEnd (trimEnd s) = trimEnd s.
Proof.
  induction s as [|c s IH]; [reflexivity|]. cbn [trimEnd].
  destruct (trimEnd s) as [|b t] eqn:E.
  - destruct (isSpace c) eqn:Ec; [reflexivity|]. simpl. now rewrite Ec.
  - cbn [trimEnd] in IH |- *. rewrite IH. reflexivity.
Qed.

Lemma trimEnd_keeps_head (s : string) :
  (forall c r, s = String c r -> isSpace c = false) ->
  forall c r, trimEnd s = String c r -> isSpace c = false.
Proof.
  intros H c r E. destruct s as [|a s]; [discriminate|].
  simpl in E. specialize (H a s eq_refl).
  destruct (trimEnd s); [rewrite H in E|]; now injection E as <- _.
Qed.

Lemma trim_idem (s : string) : trim (trim s) = trim s.
Proof.
  unfold trim. rewrite (trimStart_fixed (trimEnd (trimStart s))).
  - apply trimEnd_idem.
  - apply trimEnd_keeps_head. intros c r E.
    clear -E. induction s as [|a s IH]; simpl in E; [discriminate|].
    destruct (isSpace a) eqn:Ea; [now apply IH|]. now injection E as <- _.
Qed.

Lemma trim_empty (s : string) : trim s = "" -> allSpace s = true.
Proof.
  unfold trim. induction s as [|c s IH]; [reflexivity|]. cbn [trimStart allSpace].
  destruct (isSpace c) eqn:Ec; [exact IH|].
  cbn [trimEnd]. destruct (trimEnd s); [rewrite Ec|]; discriminate.
Qed.

Lemma allSpace_trim (s : string) : allSpace s = true -> trim s = "".
Proof.
  intros H. rewrite <- (app_empty_r s). now rewrite trim_allSpace_l.
Qed.

Lemma collapseFrom_allSpace_inv (s : string) (inRun : bool) :
  allSpace (collapseFrom inRun s) = true -> allSpace s = true.
Proof.
  revert inRun. induction s as [|c s IH]; intros inRun; simpl; [reflexivity|].
  destruct (isSpace c) eqn:Ec; [destruct inRun|]; simpl.
  - apply IH.
  - apply IH.
  - now rewrite Ec.
Qed.

Lemma normalize_empty (s : string) :
  normalize (JsStr s) = "" <-> allSpace s = true.
Proof.
  unfold normalize. destruct (String.eqb_spec s "") as [->|_]; [easy|].
  unfold replaceSpaceRuns. split.
  - intros H. apply trim_empty, collapseFrom_allSpace_inv in H.
    now rewrite allSpace_toLowerCase in H.
  - intros H. apply allSpace_trim, collapseFrom_allSpace.
    now rewrite allSpace_toLowerCase.
Qed.

Lemma normalize_shape (v : JsValue) :
  lowerCased (normalize v) = true /\ singleSpaced false (normalize v) = true /\
  trim (normalize v) = normalize v.
Proof.
  destruct v as [| |s]; cbn [normalize]; try (now repeat split).
  destruct (String.eqb s ""); [now repeat split|].
  unfold replaceSpaceRuns. split; [|split].
  - unfold trim. apply lowerCased_trimEnd, lowerCased_trimStart,
      lowerCased_collapseFrom, toLowerCase_lowerCased.
  - unfold trim. apply singleSpaced_trimEnd.
    apply (singleSpaced_trimStart _ false), singleSpaced_collapseFrom.
  - apply trim_idem.
Qed.

Lemma normalize_fixed (t : string) :
  lowerCased t = true -> singleSpaced false t = true -> trim t = t ->
  normalize (JsStr t) = t.
Proof.
  intros Hl Hs Ht. unfold normalize.
  destruct (String.eqb_spec t "") as [->|_]; [reflexivity|].
  unfold replaceSpaceRuns.
  now rewrite (lowerCased_fixed t Hl), (singleSpaced_fixed t false Hs).
Qed.

(** X11: [normalize] sends a value to a normal form: lower case, single
    spaced, without white space at either end; normalising a normal form
    changes nothing, so a value always matches its own normal form and two
    values match exactly when they have the same one.  Matching is
    transitive, and the values that match [null] are [null], [undefined]
    and the strings made of white space only. *)
Theorem normalize_normal_form :
  (forall v, lowerCased (normalize v) = true /\
             singleSpaced false (normalize v) = true /\
             trim (normalize v) = normalize v) /\
  (forall v, normalize (JsStr (normalize v)) = normalize v) /\
  (forall v, cssValuesMatch v (JsStr (normalize v)) = true) /\
  (forall v w, cssValuesMatch v w = true <-> normalize v = normalize w) /\
  (forall u v w, cssValuesMatch u v = true -> cssValuesMatch v w = true ->
                 cssValuesMatch u w = true) /\
  (forall s, cssValuesMatch JsNull (JsStr s) = true <-> allSpace s = true) /\
  (forall s, cssValuesMatch JsUndefined (JsStr s) = true <-> allSpace s = true).
Proof.
  assert (Hidem : forall v, normalize (JsStr (normalize v)) = normalize v).
  { intros v. destruct (normalize_shape v) as (Hl & Hs & Ht).
    now apply normalize_fixed. }
  split; [exact normalize_shape|]. split; [exact Hidem|].
  split; [|split; [|split; [|split]]].
  - intros v. unfold cssValuesMatch. rewrite Hidem. apply String.eqb_refl.
  - intros v w. unfold cssValuesMatch. apply String.eqb_eq.
  - intros u v w. unfold cssValuesMatch. rewrite !String.eqb_eq. congruence.
  - intros s. unfold cssValuesMatch. rewrite String.eqb_eq.
    rewrite <- normalize_empty. cbn [normalize]. split; congruence.
  - intros s. unfold cssValuesMatch. rewrite String.eqb_eq.
    rewrite <- normalize_empty. cbn [normalize]. split; congruence.
Qed.

End NormalFormFacts.

(** ** Further properties of the visual comparison *)

Module VisualBatchFacts.
Import JsString JsStringFacts VisualTest VisualTestFacts VisualBatch.

(** *** What is compared *)

Lemma compareSelector_skipped (o g : Page) (selector : string) (c : Comparison) :
  comparable o g selector = false -> compareSelector o g c selector = c.
Proof.
  unfold comparable, compareSelector, evaluateStyles.
  destruct (query o selector) as [[|eo ro]|], (query g selector) as [[|eg rg]|];
    try reflexivity.
  destruct (evaluateRejected eo), (evaluateRejected eg); try reflexivity.
  discriminate.
Qed.

Lemma comparable_elements (o g : Page) (selector : string) :
  comparable o g selector = true ->
  exists eo ro eg rg,
    query o selector = Some (eo :: ro) /\ query g selector = Some (eg :: rg) /\
    evaluateRejected eo = false /\ evaluateRejected eg = false.
Proof.
  unfold comparable.
  destruct (query o selector) as [[|eo ro]|], (query g selector) as [[|eg rg]|];
    try discriminate.
  intros H. apply andb_true_iff in H as [H1 H2].
  apply negb_true_iff in H1, H2. now exists eo, ro, eg, rg.
Qed.

Lemma compareSelector_compared (o g : Page) (selector : string) (c : Comparison)
    (eo eg : ElementHandle) (ro rg : list ElementHandle) :
  query o selector = Some (eo :: ro) -> query g selector = Some (eg :: rg) ->
  evaluateRejected eo = false -> evaluateRejected eg = false ->
  compareSelector o g c selector =
  fold_left (compareEntry selector (styleEntries (computedStyle eg) comparedProperties))
            (styleEntries (computedStyle eo) comparedProperties) c.
Proof.
  intros Ho Hg Reo Reg. unfold compareSelector, evaluateStyles.
  now rewrite Ho, Hg, Reo, Reg.
Qed.

(** The entries only accumulate. *)
Lemma compareEntries_keep (selector : string) (gs os : Styles) (c : Comparison) :
  let c' := fold_left (compareEntry selector gs) os c in
  (forall m, In m (matches c) -> In m (matches c')) /\
  (forall mm, In mm (mismatches c) -> In mm (mismatches c')).
Proof.
  cbn zeta. revert c. induction os as [|[p v] os IH]; intros c; [now split|].
  simpl. destruct (IH (compareEntry selector gs c (p, v))) as [H1 H2].
  split; intros x Hx; [apply H1 | apply H2]; unfold compareEntry;
    destruct (cssValuesMatch v (getProperty gs p)); simpl;
    try assumption; apply in_or_app; now left.
Qed.

Lemma compareSelector_keep (o g : Page) (selector : string) (c : Comparison) :
  (forall m, In m (matches c) -> In m (matches (compareSelector o g c selector))) /\
  (forall mm, In mm (mismatches c) ->
              In mm (mismatches (compareSelector o g c selector))).
Proof.
  destruct (comparable o g selector) eqn:E.
  - destruct (comparable_elements _ _ _ E) as (eo & ro & eg & rg & Ho & Hg & R1 & R2).
    rewrite (compareSelector_compared _ _ _ _ _ _ _ _ Ho Hg R1 R2).
    apply compareEntries_keep.
  - rewrite (compareSelector_skipped _ _ _ _ E). now split.
Qed.

Lemma compareSelectors_keep (o g : Page) (sels : list string) (c : Comparison) :
  (forall m, In m (matches c) ->
             In m (matches (fold_left (compareSelector o g) sels c))) /\
  (forall mm, In mm (mismatches c) ->
              In mm (mismatches (fold_left (compareSelector o g) sels c))).
Proof.
  revert c. induction sels as [|s sels IH]; intros c; [now split|].
  simpl. destruct (IH (compareSelector o g c s)) as [H1 H2].
  destruct (compareSelector_keep o g s c) as [K1 K2].
  split; intros x Hx; [apply H1, K1 | apply H2, K2]; assumption.
Qed.

(** The entries of one compared selector: sound, and one per property. *)
Lemma compareEntries_sound (o g : Page) (selector : string)
    (eo eg : ElementHandle) (ro rg : list ElementHandle)
    (props : list string) (c : Comparison) :
  In selector selectors -> comparable o g selector = true ->
  query o selector = Some (eo :: ro) -> query g selector = Some (eg :: rg) ->
  incl props comparedProperties ->
  Forall (matchSound o g) (matches c) ->
  Forall (mismatchSound o g) (mismatches c) ->
  let c' := fold_left
              (compareEntry selector
                 (styleEntries (computedStyle eg) comparedProperties))
              (styleEntries (computedStyle eo) props) c in
  Forall (matchSound o g) (matches c') /\
  Forall (mismatchSound o g) (mismatches c') /\
  (forall p, In p props -> reported c' selector p).
Proof.
  intros Hsel Hcmp Ho Hg. cbn zeta. revert c.
  induction props as [|p props IH]; intros c Hincl Hm Hmm.
  - simpl. repeat split; try assumption. intros p [].
  - assert (Hp : In p comparedProperties) by (apply Hincl; now left).
    assert (Hincl' : incl props comparedProperties)
      by (intros q Hq; apply Hincl; now right).
    change (styleEntries (computedStyle eo) (p :: props))
      with ((p, computedStyle eo p) :: styleEntries (computedStyle eo) props).
    cbn [fold_left].
    set (c1 := compareEntry selector
                 (styleEntries (computedStyle eg) comparedProperties) c
                 (p, computedStyle eo p)).
    assert (Hc1 : Forall (matchSound o g) (matches c1) /\
                  Forall (mismatchSound o g) (mismatches c1) /\
                  reported c1 selector p).
    { subst c1. unfold compareEntry.
      rewrite getProperty_styleEntries by assumption.
      destruct (cssValuesMatch (computedStyle eo p) (computedStyle eg p)) eqn:E;
        simpl.
      - split; [|split; [assumption|]].
        + apply List.Forall_app. split; [assumption|].
          constructor; [|constructor].
          split; [assumption|]. split; [assumption|]. split; [assumption|].
          now exists eo, ro, eg, rg.
        + left. eexists. split; [apply in_or_app; right; now left|].
          now split.
      - split; [assumption|]. split.
        + apply List.Forall_app. split; [assumption|].
          constructor; [|constructor].
          split; [assumption|]. split; [assumption|]. split; [assumption|].
          now exists eo, ro, eg, rg.
        + right. eexists. split; [apply in_or_app; right; now left|].
          now split. }
    destruct Hc1 as (S1 & S2 & R).
    destruct (IH c1 Hincl' S1 S2) as (T1 & T2 & T3).
    split; [assumption|]. split; [assumption|].
    intros q [<-|Hq]; [|now apply T3].
    pose proof (compareEntries_keep selector
                  (styleEntries (computedStyle eg) comparedProperties)
                  (styleEntries (computedStyle eo) props) c1) as [K1 K2].
    destruct R as [(m & Hin & E1 & E2)|(mm & Hin & E1 & E2)].
    + left. exists m. split; [now apply K1 | now split].
    + right. exists mm. split; [now apply K2 | now split].
Qed.

Lemma compareSelectors_sound (o g : Page) (sels : list string) (c : Comparison) :
  incl sels selectors ->
  Forall (matchSound o g) (matches c) ->
  Forall (mismatchSound o g) (mismatches c) ->
  let c' := fold_left (compareSelector o g) sels c in
  Forall (matchSound o g) (matches c') /\
  Forall (mismatchSound o g) (mismatches c') /\
  (forall s p, In s sels -> comparable o g s = true ->
               In p comparedProperties -> reported c' s p) /\
  List.length (matches c') + List.length (mismatches c')
  = List.length (matches c) + List.length (mismatches c)
    + 8 * List.length (List.filter (comparable o g) sels).
Proof.
  cbn zeta. revert c. induction sels as [|s sels IH]; intros c Hincl Hm Hmm.
  - simpl. repeat split; try assumption; [intros s p []|lia].
  - assert (Hs : In s selectors) by (apply Hincl; now left).
    assert (Hincl' : incl sels selectors)
      by (intros q Hq; apply Hincl; now right).
    simpl fold_left. simpl List.filter.
    destruct (comparable o g s) eqn:E.
    + destruct (comparable_elements _ _ _ E)
        as (eo & ro & eg & rg & Ho & Hg & R1 & R2).
      pose proof (compareSelector_compared o g s c eo eg ro rg Ho Hg R1 R2) as Hc.
      destruct (compareEntries_sound o g s eo eg ro rg comparedProperties c
                  Hs E Ho Hg (incl_refl _) Hm Hmm) as (S1 & S2 & S3).
      pose proof (compareEntries_total s
                    (styleEntries (computedStyle eg) comparedProperties)
                    (styleEntries (computedStyle eo) comparedProperties) c) as Ht.
      cbn zeta in Ht. rewrite <- Hc in S1, S2, S3, Ht.
      destruct (IH (compareSelector o g c s) Hincl' S1 S2) as (T1 & T2 & T3 & T4).
      split; [assumption|]. split; [assumption|]. split.
      * intros s' p [<-|Hin] Hcmp Hp; [|now apply T3].
        destruct (compareSelectors_keep o g sels (compareSelector o g c s))
          as [K1 K2].
        destruct (S3 p Hp) as [(m & Hin & E1 & E2)|(mm & Hin & E1 & E2)].
        -- left. exists m. split; [now apply K1 | now split].
        -- right. exists mm. split; [now apply K2 | now split].
      * rewrite T4, Ht. unfold styleEntries. rewrite length_map.
        simpl List.length. lia.
    + rewrite (compareSelector_skipped _ _ _ _ E).
      destruct (IH c Hincl' Hm Hmm) as (T1 & T2 & T3 & T4).
      split; [assumption|]. split; [assumption|]. split; [|exact T4].
      intros s' p [<-|Hin] Hcmp Hp; [congruence | now apply T3].
Qed.

(** X12: the comparison reports exactly the selector classes found on both
    sides: eight entries for each of them, one per property, each true to
    the first elements of the two pages, and none for a class that is
    missing on a side or whose evaluation is rejected. *)
Theorem compareCSSProperties_accounting (o g : Page) :
  let c := compareCSSProperties o g in
  List.length (matches c) + List.length (mismatches c)
  = 8 * List.length (List.filter (comparable o g) selectors) /\
  Forall (matchSound o g) (matches c) /\
  Forall (mismatchSound o g) (mismatches c) /\
  (forall s p, In s selectors -> comparable o g s = true ->
               In p comparedProperties -> reported c s p).
Proof.
  cbn zeta. unfold compareCSSProperties.
  destruct (compareSelectors_sound o g selectors
              {| matches := []; mismatches := [] |} (incl_refl _)
              (List.Forall_nil _) (List.Forall_nil _)) as (S1 & S2 & S3 & S4).
  split; [exact S4|]. split; [exact S1|]. split; [exact S2 | exact S3].
Qed.

Lemma compareCSSProperties_nothing (o g : Page) :
  (forall s, In s selectors -> comparable o g s = false) ->
  compareCSSProperties o g = {| matches := []; mismatches := [] |}.
Proof.
  unfold compareCSSProperties. generalize selectors as sels.
  induction sels as [|s sels IH]; intros H; [reflexivity|].
  simpl. rewrite compareSelector_skipped by (apply H; now left).
  apply IH. intros s' Hs'. apply H. now right.
Qed.

Lemma score_nothing :
  (80 <=? score 0 0)%float = false /\
  JsNumber.toFixed 2 (score 0 0) = Some "NaN".
Proof. split; vm_compute; reflexivity. Qed.

(** X13: when both pages load but no selector class can be compared, the
    score is the division of zero by zero: the page fails and its
    percentage reads "NaN". *)
Theorem comparePages_nothing_to_compare (ensureDir : option string)
    (o g : Page) (oUrl gUrl pageName : string) :
  loaded ensureDir o g oUrl gUrl pageName ->
  (forall s, In s selectors -> comparable o g s = false) ->
  let r := comparePages ensureDir o g oUrl gUrl pageName in
  passed r = false /\ matchPercentage r = Some "NaN" /\
  cssMatches r = [] /\ cssMismatches r = [] /\ error r = None.
Proof.
  intros Hload Hnone. rewrite (comparePages_loaded _ _ _ _ _ _ Hload).
  rewrite (compareCSSProperties_nothing o g Hnone).
  cbn [cssMatches cssMismatches passed matchPercentage error matches
       mismatches List.length].
  destruct score_nothing as [-> ->]. repeat split.
Qed.

Lemma comparePages_nothing_to_compare_witness :
  matchPercentage
    (comparePages None MoreSamples.blankPage MoreSamples.blankPage
       "http://localhost:3000" "http://localhost:5173" "home")
  = Some "NaN".
Proof.
  apply (comparePages_nothing_to_compare None MoreSamples.blankPage
           MoreSamples.blankPage "http://localhost:3000"
           "http://localhost:5173" "home").
  - repeat split.
  - intros s _. reflexivity.
Defined.

(** *** The batch *)

Lemma andThen_rejection (ensureDir : option string) (o g : Page)
    (oUrl gUrl pageName : string) :
  let rejection :=
    firstRejection [goto o (pageUrl oUrl pageName);
                    goto g (pageUrl gUrl pageName);
                    ensureDir; screenshot o; screenshot g] in
  let r := comparePages ensureDir o g oUrl gUrl pageName in
  error r = rejection /\
  (rejection <> None ->
   passed r = false /\ matchPercentage r = None /\
   cssMatches r = [] /\ cssMismatches r = []).
Proof.
  cbn zeta. unfold comparePages, andThen. cbn [firstRejection].
  destruct (goto o (pageUrl oUrl pageName)), (goto g (pageUrl gUrl pageName)),
    ensureDir, (screenshot o), (screenshot g);
    cbn [error passed matchPercentage cssMatches cssMismatches];
    (split; [reflexivity|]); intros H; try (now repeat split); now destruct H.
Qed.

Lemma testPages_spec (oUrl gUrl : string) (runs : list PageRun) (acc : Results) :
  let test r := comparePages (run_ensureDir r) (run_original r)
                             (run_generated r) oUrl gUrl (run_name r) in
  let results := fold_left (testPage oUrl gUrl) runs acc in
  res_tests results = (res_tests acc ++ map test runs)%list /\
  res_passed results
  = res_passed acc + List.length (List.filter passed (map test runs)) /\
  res_failed results
  = res_failed acc
    + List.length (List.filter (fun t => negb (passed t)) (map test runs)).
Proof.
  cbn zeta. revert acc. induction runs as [|r runs IH]; intros acc.
  - simpl. rewrite app_nil_r. repeat split; lia.
  - simpl fold_left. destruct (IH (testPage oUrl gUrl acc r)) as (H1 & H2 & H3).
    rewrite H1, H2, H3. unfold testPage. cbn [res_tests res_passed res_failed].
    simpl map. simpl List.filter.
    destruct (passed (comparePages _ _ _ oUrl gUrl (run_name r)));
      cbn [negb List.length]; rewrite <- List.app_assoc; simpl; repeat split; lia.
Qed.

(** X14: when its results are saved, [runVisualTests] returns one test per
    entry of [pages], in order; [passed] and [failed] count the tests that
    pass and those that do not and add up to the number of pages; a page
    whose load is rejected is a failed test that carries the message of the
    first rejected step, and the pages after it are still compared; with no
    page at all the accuracy reads "NaN".  When saving is rejected the call
    is rejected with that message and the results are lost. *)
Theorem runVisualTests_batch (oUrl gUrl : string) (runs : list PageRun) :
  let test r := comparePages (run_ensureDir r) (run_original r)
                             (run_generated r) oUrl gUrl (run_name r) in
  (exists results,
    runVisualTests oUrl gUrl runs None None = inr results /\
    res_tests results = map test runs /\
    res_passed results = List.length (List.filter passed (res_tests results)) /\
    res_passed results + res_failed results = List.length runs /\
    (forall r, In r runs ->
       firstRejection [goto (run_original r) (pageUrl oUrl (run_name r));
                       goto (run_generated r) (pageUrl gUrl (run_name r));
                       run_ensureDir r; screenshot (run_original r);
                       screenshot (run_generated r)] <> None ->
       In (test r) (res_tests results) /\ passed (test r) = false /\
       error (test r)
       = firstRejection [goto (run_original r) (pageUrl oUrl (run_name r));
                         goto (run_generated r) (pageUrl gUrl (run_name r));
                         run_ensureDir r; screenshot (run_original r);
                         screenshot (run_generated r)]) /\
    (runs = [] -> res_accuracy results = Some "NaN")) /\
  (forall message writeJson,
     runVisualTests oUrl gUrl runs (Some message) writeJson = inl message) /\
  (forall message,
     runVisualTests oUrl gUrl runs None (Some message) = inl message).
Proof.
  cbn zeta. split; [|split; reflexivity].
  unfold runVisualTests, andThen.
  eexists. split; [reflexivity|].
  cbn [res_tests res_passed res_failed res_accuracy].
  destruct (testPages_spec oUrl gUrl runs
              {| res_passed := 0; res_failed := 0; res_tests := [];
                 res_accuracy := Some "0" |}) as (H1 & H2 & H3).
  cbn zeta in H1, H2, H3. cbn [res_tests res_passed res_failed] in H1, H2, H3.
  rewrite H1, H2, H3. cbn [app]. split; [reflexivity|]. split; [reflexivity|].
  split; [|split].
  - rewrite <- (length_map
                  (fun r => comparePages (run_ensureDir r) (run_original r)
                              (run_generated r) oUrl gUrl (run_name r)) runs).
    generalize (map (fun r => comparePages (run_ensureDir r) (run_original r)
                                (run_generated r) oUrl gUrl (run_name r)) runs).
    induction l as [|t l IH]; [reflexivity|]. simpl.
    destruct (passed t); simpl; lia.
  - intros r Hin Hrej.
    destruct (andThen_rejection (run_ensureDir r) (run_original r)
                (run_generated r) oUrl gUrl (run_name r)) as [He Hf].
    cbn zeta in He, Hf. destruct (Hf Hrej) as (Hp & _).
    split; [|split; [exact Hp | exact He]].
    apply (in_map (fun r => comparePages (run_ensureDir r) (run_original r)
                              (run_generated r) oUrl gUrl (run_name r)) runs r Hin).
  - intros ->. vm_compute. reflexivity.
Qed.

End VisualBatchFacts.
